(** * The retail API service (services/retail_api.py)

    The module fetches categories and products from an external HTTP API,
    mirrors them into a local relational store through an ORM session, and
    offers search and recommendation helpers over the fetched data.

    The embedding follows the Python source function by function:
    - decoded JSON bodies are Python values ([value]); a record is a dict;
    - an exception is a [Raise] outcome; [try ... except] is [try_except];
    - the module's effects (HTTP requests, log records, the ORM session)
      live in a [World] threaded by the monad [Py].

    What the embedding leaves out:
    - text is a [string], a sequence of one-byte characters: [lower] and
      [title] are [str.lower] and [str.title] on ASCII text, and leave every
      other character as it is;
    - a reply carries its body decoded ([Reply]) or carries a body that is
      not JSON ([Garbled]), on which [response.json()] raises;
    - the external API answers a URL in one way while an operation runs
      ([net] is a function of the URL);
    - the operations of the store succeed: no constraint violation, no
      conversion error. *)

From Stdlib Require Import ZArith List String Ascii Bool Lia DecimalString.
From Stdlib Require Import Floats.SpecFloat.
Import ListNotations.
Open Scope string_scope.

(** ** Python values *)

#[warnings="-register-all"]
Inductive value : Type :=
| VNone
| VBool (b : bool)
| VInt (z : Z)
| VFloat (f : spec_float)
| VStr (s : string)
| VList (l : list value)
| VDict (d : list (string * value)).

(** The exceptions the module can meet. [ConnectionError], [Timeout],
    [HTTPError] and [JSONDecodeError] (requests.exceptions.JSONDecodeError,
    what [response.json()] raises) are the [requests.RequestException]
    family. *)
Inductive exn : Type :=
| ConnectionError
| Timeout
| HTTPError (status : Z)
| KeyError (key : string)
| TypeError
| AttributeError
| JSONDecodeError.

Definition is_RequestException (e : exn) : bool :=
  match e with
  | ConnectionError | Timeout | HTTPError _ | JSONDecodeError => true
  | KeyError _ | TypeError | AttributeError => false
  end.

(** [except Exception] *)
Definition is_Exception (e : exn) : bool := true.

Inductive result (A : Type) : Type :=
| Ok (a : A)
| Raise (e : exn).
Arguments Ok {A} a.
Arguments Raise {A} e.

Definition rbind {A B} (r : result A) (k : A -> result B) : result B :=
  match r with
  | Ok a => k a
  | Raise e => Raise e
  end.

(** ** Strings: [str.lower], [str.title], [in] and [str()] of an int

    The case conversions below are those of Python on ASCII text; a
    character outside the ASCII letters is left as it is, which is not what
    Python does to a cased character beyond ASCII. *)

Definition is_upper (c : ascii) : bool :=
  let n := nat_of_ascii c in (65 <=? n)%nat && (n <=? 90)%nat.

Definition is_lower (c : ascii) : bool :=
  let n := nat_of_ascii c in (97 <=? n)%nat && (n <=? 122)%nat.

Definition is_cased (c : ascii) : bool := is_upper c || is_lower c.

Definition to_lower (c : ascii) : ascii :=
  if is_upper c then ascii_of_nat (nat_of_ascii c + 32) else c.

Definition to_upper (c : ascii) : ascii :=
  if is_lower c then ascii_of_nat (nat_of_ascii c - 32) else c.

Fixpoint lower (s : string) : string :=
  match s with
  | EmptyString => EmptyString
  | String c s' => String (to_lower c) (lower s')
  end.

(** [str.title]: a cased character that follows a cased character is
    lowered, any other cased character is raised. *)
Fixpoint title_from (previous_is_cased : bool) (s : string) : string :=
  match s with
  | EmptyString => EmptyString
  | String c s' =>
      String (if previous_is_cased then to_lower c else to_upper c)
             (title_from (is_cased c) s')
  end.

Definition title (s : string) : string := title_from false s.

(** [needle in hay] for two strings *)
Fixpoint contains (needle hay : string) : bool :=
  prefix needle hay ||
  match hay with
  | EmptyString => false
  | String _ hay' => contains needle hay'
  end.

Definition str_of_int (z : Z) : string := NilZero.string_of_int (Z.to_int z).

(** ** Operations on values *)

Fixpoint dict_get (k : string) (d : list (string * value)) : option value :=
  match d with
  | [] => None
  | (k', v) :: d' => if String.eqb k k' then Some v else dict_get k d'
  end.

(** [v[k]] with a string key *)
Definition subscript (v : value) (k : string) : result value :=
  match v with
  | VDict d =>
      match dict_get k d with
      | Some x => Ok x
      | None => Raise (KeyError k)
      end
  | _ => Raise TypeError
  end.

Definition chars (s : string) : list value :=
  map (fun c => VStr (String c EmptyString)) (list_ascii_of_string s).

(** [for x in v]: the items a loop visits *)
Definition iterate (v : value) : result (list value) :=
  match v with
  | VList l => Ok l
  | VDict d => Ok (map (fun kv => VStr (fst kv)) d)
  | VStr s => Ok (chars s)
  | _ => Raise TypeError
  end.

(** [v.title()] and [v.lower()]: only a str has these attributes *)
Definition str_title (v : value) : result string :=
  match v with
  | VStr s => Ok (title s)
  | _ => Raise AttributeError
  end.

Definition str_lower (v : value) : result string :=
  match v with
  | VStr s => Ok (lower s)
  | _ => Raise AttributeError
  end.

(** The truth value of [v] in [if v] and [if not v] *)
Definition truthy (v : value) : bool :=
  match v with
  | VNone => false
  | VBool b => b
  | VInt z => negb (z =? 0)%Z
  | VFloat (S754_zero _) => false
  | VFloat _ => true
  | VStr s => negb (s =? "")
  | VList l => negb (Nat.eqb (List.length l) 0)
  | VDict d => negb (Nat.eqb (List.length d) 0)
  end.

Definition float_eq_int (f : spec_float) (z : Z) : bool :=
  match f with
  | S754_zero _ => (z =? 0)%Z
  | S754_finite s m e =>
      let v := if s then Z.neg m else Z.pos m in
      if (0 <=? e)%Z then (z =? v * 2 ^ e)%Z else (z * 2 ^ (- e) =? v)%Z
  | S754_infinity _ | S754_nan => false
  end.

(** [v == z] for an int [z] *)
Definition eq_int (v : value) (z : Z) : bool :=
  match v with
  | VInt x => (x =? z)%Z
  | VBool b => ((if b then 1 else 0) =? z)%Z
  | VFloat f => float_eq_int f z
  | VNone | VStr _ | VList _ | VDict _ => false
  end.

(** [l[:n]]: a negative bound counts from the end *)
Definition slice_to {A} (n : Z) (l : list A) : list A :=
  if (0 <=? n)%Z then firstn (Z.to_nat n) l
  else firstn (List.length l - Z.to_nat (- n)) l.

Fixpoint filter_r {A} (p : A -> result bool) (xs : list A) : result (list A) :=
  match xs with
  | [] => Ok []
  | x :: xs' =>
      rbind (p x) (fun keep =>
      rbind (filter_r p xs') (fun rest =>
      Ok (if keep then x :: rest else rest)))
  end.

Definition sf_eqb (a b : spec_float) : bool :=
  match a, b with
  | S754_zero s, S754_zero s' => Bool.eqb s s'
  | S754_infinity s, S754_infinity s' => Bool.eqb s s'
  | S754_nan, S754_nan => true
  | S754_finite s m e, S754_finite s' m' e' =>
      Bool.eqb s s' && Pos.eqb m m' && Z.eqb e e'
  | _, _ => false
  end.

(** Equality of two values as a column filter [Column == v] compares them *)
Fixpoint value_eqb (a b : value) : bool :=
  match a, b with
  | VNone, VNone => true
  | VBool x, VBool y => Bool.eqb x y
  | VInt x, VInt y => (x =? y)%Z
  | VFloat x, VFloat y => sf_eqb x y
  | VStr x, VStr y => String.eqb x y
  | VList xs, VList ys =>
      (fix all2 (xs ys : list value) : bool :=
         match xs, ys with
         | [], [] => true
         | x :: xs', y :: ys' => value_eqb x y && all2 xs' ys'
         | _, _ => false
         end) xs ys
  | VDict xs, VDict ys =>
      (fix all2 (xs ys : list (string * value)) : bool :=
         match xs, ys with
         | [], [] => true
         | (k, x) :: xs', (k', y) :: ys' =>
             String.eqb k k' && value_eqb x y && all2 xs' ys'
         | _, _ => false
         end) xs ys
  | _, _ => false
  end.

(** ** The local store

    database.models is outside this file's source; the entities carry the
    columns the service assigns. *)

Module Categoria.
(** Modelled from the spec: database.models.Categoria is not part of the
    source; a Category is identified by its name and has a generated id,
    absent until the object is flushed. *)
Record t : Type := mk { id_categoria : option Z; nombre : string }.
Definition new (nombre : string) : t := mk None nombre.
End Categoria.

Module Producto.
(** Modelled from the spec: database.models.Producto is not part of the
    source; a Product has a generated id, a name, a reference to its
    Category and a brand. *)
Record t : Type :=
  mk { id_producto : option Z;
       nombre : value;
       id_categoria : option Z;
       marca : string }.
Definition new (nombre : value) (id_categoria : option Z) (marca : string) : t :=
  mk None nombre id_categoria marca.
End Producto.

Module ProductoVariante.
(** Modelled from the spec: database.models.ProductoVariante is not part
    of the source; a Variant has a generated id and carries the reference
    to its Product, SKU, size, color, price and image URL. *)
Record t : Type :=
  mk { id_variante : option Z;
       id_producto : option Z;
       sku : string;
       talla : string;
       color : string;
       precio : value;
       image_url : value }.
Definition new (id_producto : option Z) (sku talla color : string)
           (precio image_url : value) : t :=
  mk None id_producto sku talla color precio image_url.
End ProductoVariante.

Inductive entity : Type :=
| ECategoria (c : Categoria.t)
| EProducto (p : Producto.t)
| EVariante (v : ProductoVariante.t).

(** Modelled from the spec: sqlalchemy.orm.Session is not part of the
    source; the session offers query-by-equality-filter-returning-first,
    add-pending-entity, flush-pending-writes-to-obtain-generated-ids and
    commit. Rows are kept in insertion order; [pending] holds the objects
    added and not yet flushed, oldest first; [autoflush] is the session's
    configuration flag: when set, a query first flushes the pending
    objects. *)
Record Session : Type :=
  mkSession {
    autoflush : bool;
    categorias : list Categoria.t;
    productos : list Producto.t;
    variantes : list ProductoVariante.t;
    pending : list entity;
    seq_categoria : Z;
    seq_producto : Z;
    seq_variante : Z }.

(** Modelled from the spec: the INSERT a flush emits for one pending object;
    the row takes the next generated id of its table. *)
Definition insert_entity (s : Session) (e : entity) : Session :=
  match e with
  | ECategoria c =>
      mkSession (autoflush s)
        (categorias s ++ [Categoria.mk (Some (seq_categoria s)) (Categoria.nombre c)])
        (productos s) (variantes s) (pending s)
        (seq_categoria s + 1) (seq_producto s) (seq_variante s)
  | EProducto p =>
      mkSession (autoflush s) (categorias s)
        (productos s ++ [Producto.mk (Some (seq_producto s)) (Producto.nombre p)
                           (Producto.id_categoria p) (Producto.marca p)])
        (variantes s) (pending s)
        (seq_categoria s) (seq_producto s + 1) (seq_variante s)
  | EVariante v =>
      mkSession (autoflush s) (categorias s) (productos s)
        (variantes s ++ [ProductoVariante.mk (Some (seq_variante s))
                           (ProductoVariante.id_producto v) (ProductoVariante.sku v)
                           (ProductoVariante.talla v) (ProductoVariante.color v)
                           (ProductoVariante.precio v) (ProductoVariante.image_url v)])
        (pending s)
        (seq_categoria s) (seq_producto s) (seq_variante s + 1)
  end.

Definition clear_pending (s : Session) : Session :=
  mkSession (autoflush s) (categorias s) (productos s) (variantes s) []
    (seq_categoria s) (seq_producto s) (seq_variante s).

(** Modelled from the spec: [db.flush()], flush-pending-writes-to-obtain-
    generated-ids; the pending objects become rows, in the order of their
    [add]. *)
Definition flush (s : Session) : Session :=
  fold_left insert_entity (pending s) (clear_pending s).

(** Modelled from the spec: [db.add(obj)], add-pending-entity. *)
Definition add (e : entity) (s : Session) : Session :=
  mkSession (autoflush s) (categorias s) (productos s) (variantes s)
    (pending s ++ [e])
    (seq_categoria s) (seq_producto s) (seq_variante s).

(** Modelled from the spec: [db.commit()] flushes what is pending; the
    service never rolls back, so the end of the transaction changes nothing
    else that it can observe. *)
Definition commit (s : Session) : Session := flush s.

(** Modelled from the spec: what a query sees, the rows, after the flush
    that autoflush triggers. *)
Definition before_query (s : Session) : Session :=
  if autoflush s then flush s else s.

Definition categoria_named (nombre : string) (c : Categoria.t) : bool :=
  String.eqb (Categoria.nombre c) nombre.

Definition producto_named (nombre : value) (p : Producto.t) : bool :=
  value_eqb (Producto.nombre p) nombre.

(** ** The world and the monad of the service *)

(** What the external API answers to a GET: no connection, no answer in
    time, a reply whose body is the JSON text of [body], or a reply whose
    body is not JSON (an empty body, an HTML error page). *)
Inductive http_reply : Type :=
| Unreachable
| TimedOut
| Reply (status : Z) (body : value)
| Garbled (status : Z).

Inductive level : Type := ERROR | INFO.

(** A log record: the level, the text of the message before the exception,
    and the exception the message ends with, if any. *)
Record LogRecord : Type :=
  mkLog { log_level : level; log_text : string; log_cause : option exn }.

Record World : Type :=
  mkWorld {
    net : string -> http_reply;   (* what the external API answers to a GET *)
    calls : list string;          (* the URLs requested so far, oldest first *)
    log : list LogRecord;         (* the records logged so far, oldest first *)
    db : Session }.

Definition Py (A : Type) : Type := World -> result A * World.

Definition ret {A} (a : A) : Py A := fun w => (Ok a, w).

Definition bind {A B} (m : Py A) (k : A -> Py B) : Py B :=
  fun w =>
    match m w with
    | (Ok a, w') => k a w'
    | (Raise e, w') => (Raise e, w')
    end.

Definition lift {A} (r : result A) : Py A := fun w => (r, w).

Definition try_except {A} (body : Py A) (catches : exn -> bool)
           (handler : exn -> Py A) : Py A :=
  fun w =>
    match body w with
    | (Ok a, w') => (Ok a, w')
    | (Raise e, w') => if catches e then handler e w' else (Raise e, w')
    end.

Declare Scope py_scope.
Delimit Scope py_scope with py.
Notation "x <- m ;; k" := (bind m (fun x => k))
  (at level 61, m at next level, right associativity) : py_scope.
Notation "m ;; k" := (bind m (fun _ => k))
  (at level 61, right associativity) : py_scope.
Open Scope py_scope.

(** A [for] loop that updates a local variable *)
Fixpoint for_fold {A S} (xs : list A) (acc : S) (body : S -> A -> Py S) : Py S :=
  match xs with
  | [] => ret acc
  | x :: xs' => acc' <- body acc x ;; for_fold xs' acc' body
  end.

(** The world after the session became [s] *)
Definition set_db (w : World) (s : Session) : World :=
  mkWorld (net w) (calls w) (log w) s.

Definition with_db (f : Session -> Session) : Py unit :=
  fun w => (Ok tt, set_db w (f (db w))).

Definition db_add (e : entity) : Py unit := with_db (add e).
Definition db_flush : Py unit := with_db flush.
Definition db_commit : Py unit := with_db commit.

(** Modelled from the spec: query-by-equality-filter-returning-first,
    [db.query(Categoria).filter(Categoria.nombre == nombre).first()]; the
    first row in insertion order. *)
Definition query_categoria_first (nombre : string) : Py (option Categoria.t) :=
  fun w =>
    let s := before_query (db w) in
    (Ok (find (categoria_named nombre) (categorias s)), set_db w s).

(** Modelled from the spec: query-by-equality-filter-returning-first,
    [db.query(Producto).filter(Producto.nombre == nombre).first()]. *)
Definition query_producto_first (nombre : value) : Py (option Producto.t) :=
  fun w =>
    let s := before_query (db w) in
    (Ok (find (producto_named nombre) (productos s)), set_db w s).

(** Modelled from the spec: after [db.add(obj); db.flush()] the object bound
    to the variable carries its generated id; it is the row the flush made
    of it, the last row of its table. *)
Definition flushed_categoria (c : Categoria.t) : Py Categoria.t :=
  fun w => (Ok (last (categorias (db w)) c), w).

Definition flushed_producto (p : Producto.t) : Py Producto.t :=
  fun w => (Ok (last (productos (db w)) p), w).

(** The world after one more record was logged *)
Definition logged (r : LogRecord) (w : World) : World :=
  mkWorld (net w) (calls w) (log w ++ [r]) (db w).

Definition logger_error (text : string) (e : exn) : Py unit :=
  fun w => (Ok tt, logged (mkLog ERROR text (Some e)) w).

Definition logger_info (text : string) : Py unit :=
  fun w => (Ok tt, logged (mkLog INFO text None) w).

(** ** The HTTP client: [requests.get], [raise_for_status], [json] *)

(** A response: its status and what its body decodes to, if it is JSON *)
Record Response : Type := mkResponse { status_code : Z; decoded : option value }.

(** The world after one more URL was requested *)
Definition called (url : string) (w : World) : World :=
  mkWorld (net w) (calls w ++ [url]) (log w) (db w).

(** Modelled from the spec: [requests.get(url, timeout=...)], a GET that
    returns a response or signals a transport failure. *)
Definition requests_get (url : string) : Py Response :=
  fun w =>
    let w' := called url w in
    match net w url with
    | Unreachable => (Raise ConnectionError, w')
    | TimedOut => (Raise Timeout, w')
    | Reply status body => (Ok (mkResponse status (Some body)), w')
    | Garbled status => (Ok (mkResponse status None), w')
    end.

(** [response.raise_for_status()] of the requests library: HTTPError for a
    client or server error status, 400 to 599, and nothing for any other
    status (a 1xx or 3xx status passes). *)
Definition raise_for_status (r : Response) : Py unit :=
  if (400 <=? status_code r)%Z && (status_code r <? 600)%Z
  then lift (Raise (HTTPError (status_code r)))
  else ret tt.

(** [response.json()] of the requests library: the decoded body, or
    JSONDecodeError when the body is not JSON. *)
Definition json (r : Response) : result value :=
  match decoded r with
  | Some body => Ok body
  | None => Raise JSONDecodeError
  end.

(** ** RetailAPIService *)

Section Service.

(** The text [str()] gives a float, a list or a dict is computed by the
    Python runtime; the service only splices it into URLs and SKUs. *)
Variable repr_of : value -> string.

(** [f"{v}"] *)
Definition format (v : value) : string :=
  match v with
  | VStr s => s
  | VInt z => str_of_int z
  | VNone => "None"
  | VBool true => "True"
  | VBool false => "False"
  | VFloat _ | VList _ | VDict _ => repr_of v
  end.

Definition base_url : string := "https://fakestoreapi.com".

Definition get_categories : Py value :=
  try_except
    (response <- requests_get (base_url ++ "/products/categories") ;;
     raise_for_status response ;;
     lift (json response))
    is_RequestException
    (fun e =>
       logger_error "Error al obtener categorías: " e ;;
       ret (VList [])).

Definition get_products (limit : Z) : Py value :=
  try_except
    (response <- requests_get (base_url ++ "/products?limit=" ++ str_of_int limit) ;;
     raise_for_status response ;;
     lift (json response))
    is_RequestException
    (fun e =>
       logger_error "Error al obtener productos: " e ;;
       ret (VList [])).

Definition get_product_by_id (product_id : Z) : Py value :=
  try_except
    (response <- requests_get (base_url ++ "/products/" ++ str_of_int product_id) ;;
     raise_for_status response ;;
     lift (json response))
    is_RequestException
    (fun e =>
       logger_error ("Error al obtener producto " ++ str_of_int product_id ++ ": ") e ;;
       ret VNone).

Definition get_products_by_category (category : value) : Py value :=
  try_except
    (response <- requests_get (base_url ++ "/products/category/" ++ format category) ;;
     raise_for_status response ;;
     lift (json response))
    is_RequestException
    (fun e =>
       logger_error ("Error al obtener productos de categoría " ++ format category ++ ": ") e ;;
       ret (VList [])).

(** The body of the loop of [sync_categories_to_db] *)
Definition sync_categoria (created_count : Z) (cat_name : value) : Py Z :=
  normalized_name <- lift (str_title cat_name) ;;
  existing <- query_categoria_first normalized_name ;;
  match existing with
  | None =>
      db_add (ECategoria (Categoria.new normalized_name)) ;;
      ret (created_count + 1)%Z
  | Some _ => ret created_count
  end.

Definition sync_categories_to_db : Py Z :=
  api_categories <- get_categories ;;
  cat_names <- lift (iterate api_categories) ;;
  created_count <- for_fold cat_names 0%Z sync_categoria ;;
  db_commit ;;
  logger_info ("Sincronizadas " ++ str_of_int created_count ++ " nuevas categorías") ;;
  ret created_count.

(** The first half of the loop body of [sync_products_to_db]: find the
    category of the record or create it *)
Definition find_or_create_categoria (product_data : value) : Py Categoria.t :=
  category <- lift (subscript product_data "category") ;;
  nombre <- lift (str_title category) ;;
  categoria <- query_categoria_first nombre ;;
  match categoria with
  | Some c => ret c
  | None =>
      category <- lift (subscript product_data "category") ;;
      nombre <- lift (str_title category) ;;
      db_add (ECategoria (Categoria.new nombre)) ;;
      db_flush ;;
      flushed_categoria (Categoria.new nombre)
  end.

(** The second half: create the product and its variant when no product
    has the title of the record *)
Definition create_producto (categoria : Categoria.t) (created_count : Z)
           (product_data : value) : Py Z :=
  nombre <- lift (subscript product_data "title") ;;
  existing_product <- query_producto_first nombre ;;
  match existing_product with
  | Some _ => ret created_count
  | None =>
      nombre <- lift (subscript product_data "title") ;;
      let producto :=
        Producto.new nombre (Categoria.id_categoria categoria) "API Externa" in
      db_add (EProducto producto) ;;
      db_flush ;;
      producto <- flushed_producto producto ;;
      id <- lift (subscript product_data "id") ;;
      precio <- lift (subscript product_data "price") ;;
      image_url <- lift (subscript product_data "image") ;;
      let variante :=
        ProductoVariante.new (Producto.id_producto producto)
          ("API-" ++ format id) "M" "N/A" precio image_url in
      db_add (EVariante variante) ;;
      ret (created_count + 1)%Z
  end.

Definition sync_producto (created_count : Z) (product_data : value) : Py Z :=
  categoria <- find_or_create_categoria product_data ;;
  create_producto categoria created_count product_data.

Definition sync_products_to_db (limit : Z) : Py Z :=
  api_products <- get_products limit ;;
  records <- lift (iterate api_products) ;;
  created_count <- for_fold records 0%Z sync_producto ;;
  db_commit ;;
  logger_info ("Sincronizados " ++ str_of_int created_count ++ " nuevos productos") ;;
  ret created_count.

(** [query.lower() in p['title'].lower()] *)
Definition title_matches (query : string) (p : value) : result bool :=
  rbind (subscript p "title") (fun t =>
  rbind (str_lower t) (fun t' =>
  Ok (contains (lower query) t'))).

Definition search_products (query : string) (category : option string)
  : Py (list value) :=
  try_except
    (products <-
       match category with
       | Some c =>
           if truthy (VStr c) then get_products_by_category (VStr c)
           else get_products 100
       | None => get_products 100
       end ;;
     pool <- lift (iterate products) ;;
     filtered_products <- lift (filter_r (title_matches query) pool) ;;
     ret (slice_to 20 filtered_products))
    is_Exception
    (fun e =>
       logger_error "Error en búsqueda: " e ;;
       ret []).

(** [p['id'] != product_id] *)
Definition is_other_product (product_id : Z) (p : value) : result bool :=
  rbind (subscript p "id") (fun i => Ok (negb (eq_int i product_id))).

Definition get_product_recommendations (product_id : Z) (limit : Z)
  : Py (list value) :=
  try_except
    (base_product <- get_product_by_id product_id ;;
     if negb (truthy base_product) then ret []
     else
       category <- lift (subscript base_product "category") ;;
       category_products <- get_products_by_category category ;;
       pool <- lift (iterate category_products) ;;
       recommendations <- lift (filter_r (is_other_product product_id) pool) ;;
       ret (slice_to limit recommendations))
    is_Exception
    (fun e =>
       logger_error "Error al obtener recomendaciones: " e ;;
       ret []).

(** ** RetailAPIClient *)

Record SyncReport : Type :=
  mkReport { categories_synced : Z; products_synced : Z }.

Definition sync_all_data (products_limit : Z) : Py SyncReport :=
  logger_info "Iniciando sincronización completa con API externa..." ;;
  categories_synced <- sync_categories_to_db ;;
  products_synced <- sync_products_to_db products_limit ;;
  ret (mkReport categories_synced products_synced).

Definition search_and_sync (query : string) (category : option string)
  : Py (list value) :=
  results <- search_products query category ;;
  for_fold (slice_to 5 results) tt
    (fun _ product => sync_products_to_db 1 ;; ret tt) ;;
  ret results.

(** ** Module-level helpers *)

Definition sync_external_data (products_limit : Z) : Py SyncReport :=
  sync_all_data products_limit.

End Service.

(** ** Views used to state the properties *)

(** What a reply makes [requests.get], [raise_for_status] or [json] raise *)
Definition failure_of (r : http_reply) : option exn :=
  match r with
  | Unreachable => Some ConnectionError
  | TimedOut => Some Timeout
  | Reply status _ =>
      if (400 <=? status)%Z && (status <? 600)%Z then Some (HTTPError status)
      else None
  | Garbled status =>
      if (400 <=? status)%Z && (status <? 600)%Z then Some (HTTPError status)
      else Some JSONDecodeError
  end.

Definition body_of (r : http_reply) : value :=
  match r with
  | Reply _ body => body
  | Unreachable | TimedOut | Garbled _ => VNone
  end.

Definition url_categories : string := base_url ++ "/products/categories".
Definition url_products (limit : Z) : string :=
  base_url ++ "/products?limit=" ++ str_of_int limit.
Definition url_product (product_id : Z) : string :=
  base_url ++ "/products/" ++ str_of_int product_id.
Definition url_category (category : string) : string :=
  base_url ++ "/products/category/" ++ category.

Module ApiProduct.
(** A product record of the external API: a dict that has at least an int
    [id], a str [title], a str [category], a [price] and an [image]. *)
Record t : Type :=
  mk { id : Z; title : string; category : string; price : value; image : value }.
End ApiProduct.

Definition as_product (v : value) : option ApiProduct.t :=
  match v with
  | VDict d =>
      match dict_get "id" d, dict_get "title" d, dict_get "category" d,
            dict_get "price" d, dict_get "image" d with
      | Some (VInt i), Some (VStr t), Some (VStr c), Some p, Some im =>
          Some (ApiProduct.mk i t c p im)
      | _, _, _, _, _ => None
      end
  | _ => None
  end.

Fixpoint as_products (vs : list value) : option (list ApiProduct.t) :=
  match vs with
  | [] => Some []
  | v :: vs' =>
      match as_product v, as_products vs' with
      | Some r, Some rs => Some (r :: rs)
      | _, _ => None
      end
  end.

(** The items of [xs] that are new at their turn: an item is new when its
    key is neither present at the start nor the key of an earlier item. *)
Fixpoint news {A} (key : A -> string) (present : string -> bool) (xs : list A)
  : list A :=
  match xs with
  | [] => []
  | x :: xs' =>
      if present (key x) then news key present xs'
      else x :: news key (fun k => String.eqb k (key x) || present k) xs'
  end.

Definition has_categoria (s : Session) (nombre : string) : bool :=
  existsb (categoria_named nombre) (categorias s).

Definition has_producto (s : Session) (titulo : string) : bool :=
  existsb (producto_named (VStr titulo)) (productos s).

Definition is_variante (e : entity) : bool :=
  match e with
  | EVariante _ => true
  | ECategoria _ | EProducto _ => false
  end.

(** A session in which no category and no product waits for a flush *)
Definition steady (s : Session) : bool := forallb is_variante (pending s).

(** The loop of [sync_categories_to_db] on a session that inserts at once *)
Definition mirror_categoria (s : Session) (nombre : string) : Session :=
  match find (categoria_named (title nombre)) (categorias s) with
  | Some _ => s
  | None => insert_entity s (ECategoria (Categoria.new (title nombre)))
  end.

(** The loop body of [sync_products_to_db] on a session that inserts at
    once: the category found or inserted, then the product and its variant *)
Definition categoria_for (s : Session) (r : ApiProduct.t) : Session * Categoria.t :=
  let nombre := title (ApiProduct.category r) in
  match find (categoria_named nombre) (categorias s) with
  | Some c => (s, c)
  | None =>
      let s' := insert_entity s (ECategoria (Categoria.new nombre)) in
      (s', last (categorias s') (Categoria.new nombre))
  end.

Definition producto_for (s : Session) (c : Categoria.t) (r : ApiProduct.t)
  : Session * bool :=
  let nombre := VStr (ApiProduct.title r) in
  match find (producto_named nombre) (productos s) with
  | Some _ => (s, false)
  | None =>
      let p := Producto.new nombre (Categoria.id_categoria c) "API Externa" in
      let s' := insert_entity s (EProducto p) in
      let p' := last (productos s') p in
      let v := ProductoVariante.new (Producto.id_producto p')
                 ("API-" ++ str_of_int (ApiProduct.id r)) "M" "N/A"
                 (ApiProduct.price r) (ApiProduct.image r) in
      (insert_entity s' (EVariante v), true)
  end.

Definition mirror_producto (s : Session) (r : ApiProduct.t) : Session * bool :=
  let (s', c) := categoria_for s r in producto_for s' c r.

Definition mirror_productos (s : Session) (rs : list ApiProduct.t) : Session :=
  fold_left (fun s r => fst (mirror_producto s r)) rs s.


(** The rows one record leaves when it creates a product: the product [p],
    its variant [v], and among [cats] the category the product refers to *)
Definition row_created (cats : list Categoria.t) (r : ApiProduct.t)
           (p : Producto.t) (v : ProductoVariante.t) : Prop :=
  Producto.nombre p = VStr (ApiProduct.title r) /\
  Producto.marca p = "API Externa" /\
  Producto.id_producto p <> None /\
  (exists c, In c cats /\
             Categoria.nombre c = title (ApiProduct.category r) /\
             Producto.id_categoria p = Categoria.id_categoria c) /\
  ProductoVariante.id_producto v = Producto.id_producto p /\
  ProductoVariante.sku v = "API-" ++ str_of_int (ApiProduct.id r) /\
  ProductoVariante.talla v = "M" /\
  ProductoVariante.color v = "N/A" /\
  ProductoVariante.precio v = ApiProduct.price r /\
  ProductoVariante.image_url v = ApiProduct.image r.

Inductive rows_created (cats : list Categoria.t)
  : list ApiProduct.t -> list Producto.t -> list ProductoVariante.t -> Prop :=
| rows_created_nil : rows_created cats [] [] []
| rows_created_cons r p v rs ps vs :
    row_created cats r p v ->
    rows_created cats rs ps vs ->
    rows_created cats (r :: rs) (p :: ps) (v :: vs).

Definition mirror_categorias (s : Session) (nombres : list string) : Session :=
  fold_left mirror_categoria nombres s.

(** What a list-returning fetch operation returns for a reply *)
Definition fetched (r : http_reply) : value :=
  match failure_of r with
  | Some _ => VList []
  | None => body_of r
  end.

Definition field (k : string) (v : value) : option value :=
  match subscript v k with
  | Ok x => Some x
  | Raise _ => None
  end.

Definition title_of (v : value) : option string :=
  match field "title" v with
  | Some (VStr t) => Some t
  | _ => None
  end.

Definition has_title (v : value) : bool :=
  match title_of v with Some _ => true | None => false end.

(** The title of [v] contains [query], letter case apart *)
Definition matches (query : string) (v : value) : bool :=
  match title_of v with
  | Some t => contains (lower query) (lower t)
  | None => false
  end.

Definition has_id (v : value) : bool :=
  match field "id" v with Some _ => true | None => false end.

(** The id of [v] differs from [product_id] *)
Definition other_than (product_id : Z) (v : value) : bool :=
  match field "id" v with
  | Some i => negb (eq_int i product_id)
  | None => false
  end.

(** The URL [search_products] draws its pool from *)
Definition search_url (category : option string) : string :=
  match category with
  | Some (String a c) => url_category (String a c)
  | Some EmptyString | None => url_products 100
  end.

(** The search as a filter: the pool records whose title contains the
    query, in the order of the pool, at most 20; nothing when the pool is
    not a sequence of records with a str title *)
Definition search_spec (query : string) (products : value) : list value :=
  match iterate products with
  | Ok pool =>
      if forallb has_title pool then firstn 20 (filter (matches query) pool)
      else []
  | Raise _ => []
  end.

(** The recommendations as the source cuts them: the records of the
    category other than the product, in the order of the pool, cut by the
    slice [[:limit]]; nothing when the pool is not a sequence of records
    with an id *)
Definition recommend_sliced (product_id limit : Z) (category_products : value)
  : list value :=
  match iterate category_products with
  | Ok pool =>
      if forallb has_id pool
      then slice_to limit (filter (other_than product_id) pool)
      else []
  | Raise _ => []
  end.

(** The recommendations as a filter: the records of the category other
    than the product, in the order of the pool, at most [limit] of them *)
Definition recommend_spec (product_id limit : Z) (category_products : value)
  : list value :=
  match iterate category_products with
  | Ok pool =>
      if forallb has_id pool
      then firstn (Z.to_nat limit) (filter (other_than product_id) pool)
      else []
  | Raise _ => []
  end.

(** What [get_product_by_id] returns for a reply *)
Definition fetched_one (r : http_reply) : value :=
  match failure_of r with
  | Some _ => VNone
  | None => body_of r
  end.

(** The category the recommendations are drawn from: none when the base
    product is falsy or has no category *)
Definition base_category (base_product : value) : option value :=
  if truthy base_product then field "category" base_product else None.

(** An operation that leaves the external API as it is *)
Definition keeps_net {A} (m : Py A) : Prop :=
  forall w r w', m w = (r, w') -> net w' = net w.

(** ** Sample catalogues and stores *)

(** A runtime whose [repr] of floats and containers is the empty text: none
    of the samples below formats such a value. *)
Definition plain_repr (v : value) : string := "".

Definition price_9_99 : value := VFloat (S754_finite false 5623870034678907 (-49)).

Definition record (i : Z) (t c : string) (p : value) (im : string) : value :=
  VDict [("id", VInt i); ("title", VStr t); ("price", p);
         ("category", VStr c); ("image", VStr im)].

Definition shirt : value := record 1 "Shirt" "men's clothing" price_9_99 "u1".
Definition lamp : value := record 2 "Lamp" "home" (VInt 30) "u2".
Definition blue_shirt : value := record 3 "blue shirt" "men's clothing" (VInt 12) "u3".
Definition radio : value := record 5 "Radio" "electronics" (VInt 40) "u5".
Definition phone : value := record 6 "Phone" "electronics" (VInt 300) "u6".
Definition cable : value := record 7 "Cable" "electronics" (VInt 5) "u7".
Definition mouse : value := record 8 "Mouse" "electronics" (VInt 15) "u8".

(** A record without a category *)
Definition mug : value := VDict [("id", VInt 4); ("title", VStr "Mug")].

Definition empty_store (af : bool) : Session := mkSession af [] [] [] [] 1 1 1.

Definition world_of (api : string -> http_reply) (s : Session) : World :=
  mkWorld api [] [] s.

(** An API that answers every request used below *)
Definition catalog (url : string) : http_reply :=
  if url =? url_categories then
    Reply 200 (VList [VStr "men's clothing"; VStr "MEN'S CLOTHING"; VStr "jewelery"])
  else if url =? url_products 1 then Reply 200 (VList [shirt])
  else if url =? url_products 50 then Reply 200 (VList [shirt; lamp; shirt])
  else if url =? url_products 100 then Reply 200 (VList [shirt; lamp])
  else if url =? url_product 5 then Reply 200 radio
  else if url =? url_product 9 then Reply 404 (VDict [])
  else if url =? url_category "electronics" then
    Reply 200 (VList [radio; phone; cable; mouse])
  else if url =? url_category "" then Reply 200 (VList [lamp])
  else Unreachable.

(** The same catalogue after a price and an image changed *)
Definition catalog_repriced (url : string) : http_reply :=
  if url =? url_products 50 then
    Reply 200 (VList [record 1 "Shirt" "men's clothing" (VInt 11) "u1-new";
                      lamp; shirt])
  else catalog url.

(** An API that lists a product whose title is in lower case *)
Definition catalog_lower (url : string) : http_reply :=
  if url =? url_products 50 then Reply 200 (VList [blue_shirt]) else Unreachable.


(** An API that cannot be reached, and one that answers 503 *)
Definition offline (url : string) : http_reply := Unreachable.
Definition unavailable (url : string) : http_reply := Reply 503 VNone.

(** One turn of the product loop on an empty store *)
Definition sample_turn : result Z * World :=
  sync_producto plain_repr 0 shirt (world_of offline (empty_store false)).

(** ** Views on the growth of the store *)

(** The tables of [s'] are those of [s] with rows appended: no row of [s]
    was changed or removed. *)
Definition extends (s s' : Session) : Prop :=
  (exists C, categorias s' = (categorias s ++ C)%list) /\
  (exists P, productos s' = (productos s ++ P)%list) /\
  (exists V, variantes s' = (variantes s ++ V)%list).

(** An operation that only appends rows to the store *)
Definition only_adds {A} (m : Py A) : Prop :=
  forall w r w', m w = (r, w') -> extends (db w) (db w').

(** Several [db.add] in a row *)
Definition add_all (es : list entity) (s : Session) : Session :=
  fold_left (fun s e => add e s) es s.

(** A name is absent from the categories of [s] *)
Definition lacks_categoria (s : Session) (nombre : string) : bool :=
  negb (has_categoria s nombre).

(** ** More samples *)

(** A record with a category and a title and nothing else *)
Definition cap : value :=
  VDict [("title", VStr "Cap"); ("category", VStr "hats")].

(** An API whose listing has a good record, then one without a category *)
Definition catalog_broken (url : string) : http_reply :=
  if url =? url_products 50 then Reply 200 (VList [shirt; mug; lamp])
  else Unreachable.

(** An API whose category names differ from those of [catalog] by letter
    case only *)
Definition catalog_shouting (url : string) : http_reply :=
  if url =? url_categories then
    Reply 200 (VList [VStr "MEN'S CLOTHING"; VStr "men's CLOTHING"; VStr "JEWELERY"])
  else catalog url.

(** An API that answers 304 with a body *)
Definition catalog_cached (url : string) : http_reply :=
  Reply 304 (VList [VStr "hats"]).

(** The INSERTs of new categories with the names [ts], in order *)
Definition insert_categorias (ts : list string) (s : Session) : Session :=
  fold_left insert_entity (map (fun t => ECategoria (Categoria.new t)) ts) s.

(** The names of the categories a run of [sync_categories_to_db] creates
    from the fetched names: with autoflush, each title-cased name absent
    from the store, once; without, each occurrence of such a name. *)
Definition categorias_created (s : Session) (nombres : list string) : list string :=
  if autoflush s then news (fun n => n) (has_categoria s) (map title nombres)
  else filter (lacks_categoria s) (map title nombres).

(** The name of the Category of a record *)
Definition category_title (r : ApiProduct.t) : string :=
  title (ApiProduct.category r).

(** A store that holds the product "Shirt" and no category *)
Definition store_of_one_shirt : Session :=
  mkSession false [] [Producto.mk (Some 1%Z) (VStr "Shirt") None "API Externa"]
    [] [] 1 2 1.

(** The first of the keys id, price, image that a record lacks *)
Definition first_missing (d : list (string * value)) : option string :=
  match dict_get "id" d, dict_get "price" d, dict_get "image" d with
  | None, _, _ => Some "id"
  | Some _, None, _ => Some "price"
  | Some _, Some _, None => Some "image"
  | Some _, Some _, Some _ => None
  end.

(** A store that holds one category, one product and its variant *)
Definition store_of_one_lamp : Session :=
  mkSession false
    [Categoria.mk (Some 1%Z) "Home"]
    [Producto.mk (Some 1%Z) (VStr "Lamp") (Some 1%Z) "API Externa"]
    [ProductoVariante.mk (Some 1%Z) (Some 1%Z) "API-2" "M" "N/A" (VInt 30) (VStr "u2")]
    [] 2 2 2.

(** An API whose listing is one record without id, price and image *)
Definition catalog_bare (url : string) : http_reply :=
  if url =? url_products 50 then Reply 200 (VList [cap]) else Unreachable.

(** An API whose listing holds a record without a category and a number *)
Definition catalog_odd (url : string) : http_reply :=
  Reply 200 (VList [mug; VInt 3]).

(** A record the loop of [sync_products_to_db] can process: a dict with a
    str [category] and the keys [title], [id], [price] and [image]. *)
Definition syncable (v : value) : bool :=
  match v with
  | VDict d =>
      match dict_get "category" d, dict_get "title" d, dict_get "id" d,
            dict_get "price" d, dict_get "image" d with
      | Some (VStr _), Some _, Some _, Some _, Some _ => true
      | _, _, _, _, _ => false
      end
  | _ => false
  end.

(** * Properties *)

(** ** The session: what a flush does *)

Lemma pending_insert_entity s e : pending (insert_entity s e) = pending s.
Proof. destruct e; reflexivity. Qed.

Lemma autoflush_insert_entity s e : autoflush (insert_entity s e) = autoflush s.
Proof. destruct e; reflexivity. Qed.

Lemma pending_fold_insert l : forall s,
  pending (fold_left insert_entity l s) = pending s.
Proof.
  induction l as [|e l IH]; intros s; simpl; [reflexivity|].
  rewrite IH. apply pending_insert_entity.
Qed.

Lemma autoflush_fold_insert l : forall s,
  autoflush (fold_left insert_entity l s) = autoflush s.
Proof.
  induction l as [|e l IH]; intros s; simpl; [reflexivity|].
  rewrite IH. apply autoflush_insert_entity.
Qed.

Lemma pending_flush s : pending (flush s) = [].
Proof. unfold flush. rewrite pending_fold_insert. reflexivity. Qed.

Lemma autoflush_flush s : autoflush (flush s) = autoflush s.
Proof. unfold flush. rewrite autoflush_fold_insert. reflexivity. Qed.

Lemma flush_clean s : pending s = [] -> flush s = s.
Proof.
  destruct s as [af cs ps vs pe sc sp sv]; simpl; intros ->. reflexivity.
Qed.

Lemma flush_flush s : flush (flush s) = flush s.
Proof. apply flush_clean, pending_flush. Qed.

Lemma flush_add e s : flush (add e s) = insert_entity (flush s) e.
Proof. unfold flush, add; simpl. rewrite fold_left_app. reflexivity. Qed.

Lemma flush_before_query s : flush (before_query s) = flush s.
Proof.
  unfold before_query. destruct (autoflush s); [apply flush_flush|reflexivity].
Qed.

Lemma autoflush_before_query s : autoflush (before_query s) = autoflush s.
Proof.
  unfold before_query. destruct (autoflush s) eqn:E; [|assumption].
  rewrite autoflush_flush. assumption.
Qed.

Lemma steady_clean s : pending s = [] -> steady s = true.
Proof. unfold steady. intros ->. reflexivity. Qed.

Lemma steady_flush s : steady (flush s) = true.
Proof. apply steady_clean, pending_flush. Qed.

Lemma steady_before_query s : steady s = true -> steady (before_query s) = true.
Proof.
  unfold before_query. destruct (autoflush s); [intros _; apply steady_flush|auto].
Qed.

Lemma steady_add_variante s v :
  steady s = true -> steady (add (EVariante v) s) = true.
Proof.
  unfold steady, add; simpl. intros H.
  rewrite forallb_app, H. reflexivity.
Qed.

(** Flushing variants leaves the categories and the products alone. *)
Lemma fold_insert_variantes l : forall s,
  forallb is_variante l = true ->
  categorias (fold_left insert_entity l s) = categorias s /\
  productos (fold_left insert_entity l s) = productos s /\
  seq_categoria (fold_left insert_entity l s) = seq_categoria s /\
  seq_producto (fold_left insert_entity l s) = seq_producto s.
Proof.
  induction l as [|e l IH]; intros s H; simpl in *; [repeat split|].
  apply andb_prop in H as [He Hl].
  destruct e; try discriminate.
  destruct (IH (insert_entity s (EVariante v)) Hl) as (H1 & H2 & H3 & H4).
  rewrite H1, H2, H3, H4. repeat split.
Qed.

Lemma categorias_flush_steady s :
  steady s = true -> categorias (flush s) = categorias s.
Proof. intros H. apply (fold_insert_variantes _ (clear_pending s) H). Qed.

Lemma productos_flush_steady s :
  steady s = true -> productos (flush s) = productos s.
Proof. intros H. apply (fold_insert_variantes _ (clear_pending s) H). Qed.

Lemma categorias_before_query s :
  steady s = true -> categorias (before_query s) = categorias (flush s).
Proof.
  intros H. unfold before_query. destruct (autoflush s); [reflexivity|].
  symmetry. apply categorias_flush_steady, H.
Qed.

Lemma productos_before_query s :
  steady s = true -> productos (before_query s) = productos (flush s).
Proof.
  intros H. unfold before_query. destruct (autoflush s); [reflexivity|].
  symmetry. apply productos_flush_steady, H.
Qed.

(** ** The fetch layer *)

(** Every fetch operation has this shape: one GET, the status check, the
    decoding of the body; a request error, which a body that is not JSON
    counts as, is logged and replaced by a default. *)
Lemma fetch_run (url text : string) (dflt : value) (w : World) :
  try_except
    (response <- requests_get url ;;
     raise_for_status response ;;
     lift (json response))
    is_RequestException
    (fun e => logger_error text e ;; ret dflt) w
  = match failure_of (net w url) with
    | Some e => (Ok dflt, logged (mkLog ERROR text (Some e)) (called url w))
    | None => (Ok (body_of (net w url)), called url w)
    end.
Proof.
  unfold try_except, bind, requests_get, raise_for_status, json, failure_of, body_of.
  destruct (net w url) as [| |status body|status]; simpl; try reflexivity;
    destruct ((400 <=? status)%Z && (status <? 600)%Z); reflexivity.
Qed.

Lemma get_categories_run w :
  get_categories w
  = match failure_of (net w url_categories) with
    | Some e =>
        (Ok (VList []),
         logged (mkLog ERROR "Error al obtener categorías: " (Some e))
                (called url_categories w))
    | None => (Ok (body_of (net w url_categories)), called url_categories w)
    end.
Proof. apply fetch_run. Qed.

Lemma get_products_run limit w :
  get_products limit w
  = match failure_of (net w (url_products limit)) with
    | Some e =>
        (Ok (VList []),
         logged (mkLog ERROR "Error al obtener productos: " (Some e))
                (called (url_products limit) w))
    | None =>
        (Ok (body_of (net w (url_products limit))), called (url_products limit) w)
    end.
Proof. apply fetch_run. Qed.

Lemma get_product_by_id_run product_id w :
  get_product_by_id product_id w
  = match failure_of (net w (url_product product_id)) with
    | Some e =>
        (Ok VNone,
         logged (mkLog ERROR
                   ("Error al obtener producto " ++ str_of_int product_id ++ ": ")
                   (Some e))
                (called (url_product product_id) w))
    | None =>
        (Ok (body_of (net w (url_product product_id))),
         called (url_product product_id) w)
    end.
Proof. apply fetch_run. Qed.

Lemma get_products_by_category_run repr_of category w :
  let url := url_category (format repr_of category) in
  get_products_by_category repr_of category w
  = match failure_of (net w url) with
    | Some e =>
        (Ok (VList []),
         logged (mkLog ERROR
                   ("Error al obtener productos de categoría "
                      ++ format repr_of category ++ ": ")
                   (Some e))
                (called url w))
    | None => (Ok (body_of (net w url)), called url w)
    end.
Proof. apply fetch_run. Qed.

(** A fetch never raises and never touches the session or the network. *)
Lemma fetch_frame (url text : string) (dflt : value) (w : World) :
  exists v w',
    try_except
      (response <- requests_get url ;;
       raise_for_status response ;;
       lift (json response))
      is_RequestException
      (fun e => logger_error text e ;; ret dflt) w = (Ok v, w') /\
    db w' = db w /\ net w' = net w.
Proof.
  rewrite fetch_run. destruct (failure_of (net w url)); eauto.
Qed.

(** ** One turn of the product loop on a well-formed record *)

Lemma as_product_fields v r :
  as_product v = Some r ->
  exists d, v = VDict d /\
    dict_get "id" d = Some (VInt (ApiProduct.id r)) /\
    dict_get "title" d = Some (VStr (ApiProduct.title r)) /\
    dict_get "category" d = Some (VStr (ApiProduct.category r)) /\
    dict_get "price" d = Some (ApiProduct.price r) /\
    dict_get "image" d = Some (ApiProduct.image r).
Proof.
  destruct v; try discriminate. unfold as_product. intros H. exists d.
  repeat match type of H with
         | match ?x with _ => _ end = Some _ => destruct x; try discriminate
         end.
  injection H as <-. simpl. repeat split.
Qed.

Lemma set_db_set_db w s s' : set_db (set_db w s) s' = set_db w s'.
Proof. reflexivity. Qed.

Lemma find_or_create_typed v r w :
  as_product v = Some r ->
  steady (db w) = true ->
  exists s1,
    find_or_create_categoria v w
      = (Ok (snd (categoria_for (flush (db w)) r)), set_db w s1) /\
    steady s1 = true /\
    autoflush s1 = autoflush (db w) /\
    flush s1 = fst (categoria_for (flush (db w)) r).
Proof.
  intros Hv Hs. destruct (as_product_fields v r Hv) as (d & -> & _ & _ & Hc & _ & _).
  unfold find_or_create_categoria, bind, lift, subscript. rewrite Hc.
  cbn [str_title]. unfold query_categoria_first.
  rewrite (categorias_before_query _ Hs). unfold categoria_for.
  destruct (find _ (categorias (flush (db w)))) as [c|] eqn:F.
  - exists (before_query (db w)). cbn [snd fst ret].
    rewrite steady_before_query, autoflush_before_query, flush_before_query by assumption.
    repeat split.
  - cbn [snd fst]. unfold db_add, db_flush, with_db, flushed_categoria. cbn [db set_db].
    rewrite flush_add, flush_before_query.
    eexists. split; [reflexivity|].
    rewrite autoflush_insert_entity, autoflush_flush.
    assert (P : pending (insert_entity (flush (db w))
                 (ECategoria (Categoria.new (title (ApiProduct.category r))))) = []).
    { rewrite pending_insert_entity. apply pending_flush. }
    rewrite (steady_clean _ P), (flush_clean _ P). repeat split.
Qed.

Lemma create_producto_typed repr_of c n v r w :
  as_product v = Some r ->
  steady (db w) = true ->
  exists s',
    create_producto repr_of c n v w
      = (Ok (n + (if snd (producto_for (flush (db w)) c r) then 1 else 0))%Z,
         set_db w s') /\
    steady s' = true /\
    autoflush s' = autoflush (db w) /\
    flush s' = fst (producto_for (flush (db w)) c r).
Proof.
  intros Hv Hs.
  destruct (as_product_fields v r Hv) as (d & -> & Hi & Ht & _ & Hp & Him).
  unfold create_producto, bind, lift, subscript. rewrite Ht, Hi, Hp, Him.
  unfold query_producto_first.
  rewrite (productos_before_query _ Hs). unfold producto_for.
  destruct (find _ (productos (flush (db w)))) as [p|] eqn:F.
  - exists (before_query (db w)). cbn [snd fst ret].
    rewrite steady_before_query, autoflush_before_query, flush_before_query by assumption.
    rewrite Z.add_0_r. repeat split.
  - cbn [snd fst]. unfold db_add, db_flush, with_db, flushed_producto, ret.
    cbn [db set_db format].
    rewrite flush_add, flush_before_query.
    eexists. split; [reflexivity|].
    set (s1 := insert_entity (flush (db w)) _).
    assert (P : pending s1 = []).
    { unfold s1. rewrite pending_insert_entity. apply pending_flush. }
    split; [apply steady_add_variante, steady_clean, P|].
    split.
    + unfold add; cbn [autoflush]. unfold s1.
      rewrite autoflush_insert_entity. apply autoflush_flush.
    + rewrite flush_add, (flush_clean _ P). reflexivity.
Qed.

Lemma sync_producto_typed repr_of n v r w :
  as_product v = Some r ->
  steady (db w) = true ->
  exists s',
    sync_producto repr_of n v w
      = (Ok (n + (if snd (mirror_producto (flush (db w)) r) then 1 else 0))%Z,
         set_db w s') /\
    steady s' = true /\
    autoflush s' = autoflush (db w) /\
    flush s' = fst (mirror_producto (flush (db w)) r).
Proof.
  intros Hv Hs. unfold sync_producto, bind, mirror_producto.
  destruct (find_or_create_typed v r w Hv Hs) as (s1 & -> & Hs1 & Ha1 & Hf1).
  destruct (categoria_for (flush (db w)) r) as [S1 c] eqn:E.
  cbn [fst snd] in *.
  destruct (create_producto_typed repr_of c n v r (set_db w s1) Hv Hs1)
    as (s2 & -> & Hs2 & Ha2 & Hf2).
  cbn [db set_db] in *. rewrite Hf1 in *.
  exists s2. repeat split; try assumption. congruence.
Qed.

(** ** The items that are new at their turn *)

Lemma existsb_find {A} (p : A -> bool) (l : list A) :
  existsb p l = match find p l with Some _ => true | None => false end.
Proof.
  induction l as [|x l IH]; simpl; [reflexivity|].
  destruct (p x); [reflexivity|exact IH].
Qed.

Lemma news_ext {A} (key : A -> string) (xs : list A) : forall p q,
  (forall k, p k = q k) -> news key p xs = news key q xs.
Proof.
  induction xs as [|x xs IH]; intros p q H; simpl; [reflexivity|].
  rewrite (H (key x)). destruct (q (key x)).
  - apply IH, H.
  - f_equal. apply IH. intros k. rewrite H. reflexivity.
Qed.

Lemma news_all_present {A} (key : A -> string) (present : string -> bool) xs :
  (forall x, In x xs -> present (key x) = true) ->
  news key present xs = [].
Proof.
  induction xs as [|x xs IH]; intros H; simpl; [reflexivity|].
  rewrite (H x (or_introl eq_refl)). apply IH.
  intros y Hy. apply H. right. exact Hy.
Qed.

(** [news] keeps exactly one item for each key of the list that is not
    present at the start. *)
Lemma news_spec {A} (key : A -> string) (xs : list A) : forall present,
  NoDup (map key (news key present xs)) /\
  (forall k, In k (map key (news key present xs)) <->
             In k (map key xs) /\ present k = false).
Proof.
  induction xs as [|x xs IH]; intros present; simpl.
  - split; [constructor|]. intros k. tauto.
  - destruct (present (key x)) eqn:E.
    + destruct (IH present) as [ND I]. split; [exact ND|].
      intros k. rewrite I. split.
      * intros [H1 H2]. auto.
      * intros [[H1|H1] H2]; [congruence|auto].
    + destruct (IH (fun k => String.eqb k (key x) || present k)) as [ND I].
      simpl. split.
      * constructor; [|exact ND].
        intros H. apply I in H as [_ H]. rewrite String.eqb_refl in H. discriminate.
      * intros k. rewrite I. split.
        -- intros [H|[H1 H2]].
           ++ subst k. auto.
           ++ apply orb_false_elim in H2 as [_ H2]. auto.
        -- intros [[H1|H1] H2]; [left; exact H1|].
           destruct (String.eqb_spec k (key x)) as [->|N]; [left; reflexivity|].
           right. split; [exact H1|]. exact H2.
Qed.

Lemma news_sublist {A} (key : A -> string) (xs : list A) : forall present x,
  In x (news key present xs) -> In x xs.
Proof.
  induction xs as [|y xs IH]; intros present x; simpl; [tauto|].
  destruct (present (key y)).
  - intros H. right. eapply IH, H.
  - intros [H|H]; [left; exact H|right; eapply IH, H].
Qed.

(** ** The reference loop for products *)

Lemma categoria_for_spec S r :
  productos (fst (categoria_for S r)) = productos S /\
  variantes (fst (categoria_for S r)) = variantes S /\
  pending (fst (categoria_for S r)) = pending S /\
  autoflush (fst (categoria_for S r)) = autoflush S /\
  seq_producto (fst (categoria_for S r)) = seq_producto S /\
  seq_variante (fst (categoria_for S r)) = seq_variante S /\
  (exists C, categorias (fst (categoria_for S r)) = (categorias S ++ C)%list) /\
  In (snd (categoria_for S r)) (categorias (fst (categoria_for S r))) /\
  Categoria.nombre (snd (categoria_for S r)) = title (ApiProduct.category r).
Proof.
  unfold categoria_for.
  destruct (find _ (categorias S)) as [c|] eqn:F; cbn [fst snd].
  - apply find_some in F as [F1 F2]. apply String.eqb_eq in F2.
    repeat split; try assumption. exists []. symmetry. apply app_nil_r.
  - simpl. rewrite last_last. repeat split.
    + eexists. reflexivity.
    + apply in_or_app. right. left. reflexivity.
Qed.

Lemma producto_for_old S c r :
  has_producto S (ApiProduct.title r) = true ->
  producto_for S c r = (S, false).
Proof.
  unfold has_producto, producto_for. rewrite existsb_find.
  destruct (find _ (productos S)); [reflexivity|discriminate].
Qed.

Lemma producto_for_new S c r :
  has_producto S (ApiProduct.title r) = false ->
  producto_for S c r
  = (insert_entity
       (insert_entity S
          (EProducto (Producto.new (VStr (ApiProduct.title r))
                        (Categoria.id_categoria c) "API Externa")))
       (EVariante (ProductoVariante.new (Some (seq_producto S))
                     ("API-" ++ str_of_int (ApiProduct.id r)) "M" "N/A"
                     (ApiProduct.price r) (ApiProduct.image r))),
     true).
Proof.
  unfold has_producto, producto_for. rewrite existsb_find.
  destruct (find _ (productos S)); [discriminate|]. intros _.
  cbn [insert_entity productos]. rewrite last_last. reflexivity.
Qed.

Lemma has_producto_same S S' :
  productos S' = productos S -> forall k, has_producto S' k = has_producto S k.
Proof. unfold has_producto. intros -> k. reflexivity. Qed.

Lemma mirror_producto_created S r :
  snd (mirror_producto S r) = negb (has_producto S (ApiProduct.title r)).
Proof.
  unfold mirror_producto.
  destruct (categoria_for_spec S r) as (HP & _).
  destruct (categoria_for S r) as [S1 c]; cbn [fst snd] in *.
  destruct (has_producto S (ApiProduct.title r)) eqn:E.
  - rewrite producto_for_old; [reflexivity|].
    rewrite (has_producto_same _ _ HP). exact E.
  - rewrite producto_for_new; [reflexivity|].
    rewrite (has_producto_same _ _ HP). exact E.
Qed.

Lemma mirror_producto_has S r k :
  has_producto (fst (mirror_producto S r)) k
  = String.eqb k (ApiProduct.title r) || has_producto S k.
Proof.
  unfold mirror_producto.
  destruct (categoria_for_spec S r) as (HP & _).
  destruct (categoria_for S r) as [S1 c]; cbn [fst snd] in *.
  destruct (has_producto S (ApiProduct.title r)) eqn:E.
  - rewrite producto_for_old by (rewrite (has_producto_same _ _ HP); exact E).
    cbn [fst]. rewrite (has_producto_same _ _ HP).
    destruct (String.eqb_spec k (ApiProduct.title r)) as [->|N]; [|reflexivity].
    rewrite E. reflexivity.
  - rewrite producto_for_new by (rewrite (has_producto_same _ _ HP); exact E).
    cbn [fst]. unfold has_producto. cbn [insert_entity productos].
    rewrite HP, existsb_app. cbn [existsb producto_named Producto.nombre Producto.new value_eqb].
    rewrite orb_false_r, orb_comm, String.eqb_sym. reflexivity.
Qed.

Lemma row_created_incl cats cats' r p v :
  incl cats cats' -> row_created cats r p v -> row_created cats' r p v.
Proof.
  intros I (H1 & H2 & H3 & (c & Hc & Hn & Hi) & H5).
  repeat split; try assumption; try apply H5.
  exists c. auto.
Qed.

Lemma rows_created_incl cats cats' rs ps vs :
  incl cats cats' -> rows_created cats rs ps vs -> rows_created cats' rs ps vs.
Proof.
  intros I H. induction H; constructor; eauto using row_created_incl.
Qed.

Lemma rows_created_length cats rs ps vs :
  rows_created cats rs ps vs ->
  List.length ps = List.length rs /\ List.length vs = List.length rs.
Proof.
  induction 1 as [|r p v rs ps vs _ _ [IH1 IH2]]; simpl; auto.
Qed.

Lemma mirror_productos_cons S r rs :
  mirror_productos S (r :: rs) = mirror_productos (fst (mirror_producto S r)) rs.
Proof. reflexivity. Qed.

(** What the reference loop leaves: the categories, products and variants
    it met stay as they are, and each record that is new at its turn adds
    one product and one variant. *)
Lemma mirror_productos_spec rs : forall S,
  exists C P V,
    categorias (mirror_productos S rs) = (categorias S ++ C)%list /\
    productos (mirror_productos S rs) = (productos S ++ P)%list /\
    variantes (mirror_productos S rs) = (variantes S ++ V)%list /\
    pending (mirror_productos S rs) = pending S /\
    rows_created (categorias (mirror_productos S rs))
      (news ApiProduct.title (has_producto S) rs) P V.
Proof.
  induction rs as [|r rs IH]; intros S.
  - exists [], [], []. simpl. rewrite !app_nil_r. repeat split. constructor.
  - rewrite mirror_productos_cons.
    pose proof (mirror_producto_has S r) as Hhas.
    destruct (IH (fst (mirror_producto S r))) as (C & P & V & HC & HP & HV & HQ & HR).
    set (F := mirror_productos (fst (mirror_producto S r)) rs) in *.
    revert Hhas HC HP HV HQ HR. unfold mirror_producto.
    destruct (categoria_for_spec S r)
      as (H1 & H2 & H3 & _ & H5 & H6 & (C1 & H7) & H8 & H9).
    destruct (categoria_for S r) as [S1 c]; cbn [fst snd] in *.
    cbn [news].
    destruct (has_producto S (ApiProduct.title r)) eqn:E.
    + rewrite producto_for_old by (rewrite (has_producto_same _ _ H1); exact E).
      cbn [fst]. intros Hhas HC HP HV HQ HR.
      exists (C1 ++ C)%list, P, V.
      split; [rewrite HC, H7, <- app_assoc; reflexivity|].
      split; [rewrite HP, H1; reflexivity|].
      split; [rewrite HV, H2; reflexivity|].
      split; [rewrite HQ, H3; reflexivity|].
      rewrite (news_ext _ _ (has_producto S) (has_producto S1)); [exact HR|].
      intros k. symmetry. apply has_producto_same, H1.
    + rewrite producto_for_new by (rewrite (has_producto_same _ _ H1); exact E).
      cbn [fst]. intros Hhas HC HP HV HQ HR.
      cbn [insert_entity categorias productos variantes pending] in HC, HP, HV, HQ.
      eexists (C1 ++ C)%list, (_ :: P), (_ :: V).
      split; [rewrite HC, H7, <- app_assoc; reflexivity|].
      split; [rewrite HP, H1, <- app_assoc; reflexivity|].
      split; [rewrite HV, H2, <- app_assoc; reflexivity|].
      split; [rewrite HQ, H3; reflexivity|].
      constructor.
      * repeat split; try discriminate.
        exists c. split; [|split; [exact H9|reflexivity]].
        rewrite HC. apply in_or_app. left. exact H8.
      * rewrite (news_ext _ _ _ _ (fun k => eq_sym (Hhas k))). exact HR.
Qed.

(** Records whose titles are all present create nothing. *)
Lemma mirror_productos_present rs S :
  (forall r, In r rs -> has_producto S (ApiProduct.title r) = true) ->
  productos (mirror_productos S rs) = productos S /\
  variantes (mirror_productos S rs) = variantes S.
Proof.
  intros H.
  destruct (mirror_productos_spec rs S) as (C & P & V & _ & HP & HV & _ & HR).
  rewrite (news_all_present _ _ _ H) in HR.
  inversion HR; subst. rewrite HP, HV, !app_nil_r. auto.
Qed.

(** After the loop the title of every record is present. *)
Lemma mirror_productos_has rs : forall S k,
  has_producto (mirror_productos S rs) k
  = existsb (String.eqb k) (map ApiProduct.title rs) || has_producto S k.
Proof.
  induction rs as [|r rs IH]; intros S k; [reflexivity|].
  rewrite mirror_productos_cons, IH, mirror_producto_has. simpl.
  destruct (String.eqb k (ApiProduct.title r)); simpl;
    [apply orb_true_r|reflexivity].
Qed.

(** ** [sync_products_to_db] on well-formed records *)

Lemma as_products_cons v vs rs :
  as_products (v :: vs) = Some rs ->
  exists r rs', as_product v = Some r /\ as_products vs = Some rs' /\ rs = r :: rs'.
Proof.
  simpl. destruct (as_product v) as [r|]; [|discriminate].
  destruct (as_products vs) as [rs'|]; [|discriminate].
  intros H. injection H as <-. eauto.
Qed.

Lemma get_products_frame limit w r w0 :
  get_products limit w = (r, w0) -> db w0 = db w /\ net w0 = net w.
Proof.
  rewrite get_products_run.
  destruct (failure_of _); intros H; injection H as <- <-; auto.
Qed.

Lemma for_fold_sync_producto repr_of vs : forall rs n w,
  as_products vs = Some rs ->
  steady (db w) = true ->
  exists s',
    for_fold vs n (sync_producto repr_of) w
      = (Ok (n + Z.of_nat (List.length
                             (news ApiProduct.title
                                (has_producto (flush (db w))) rs)))%Z,
         set_db w s') /\
    steady s' = true /\
    autoflush s' = autoflush (db w) /\
    flush s' = mirror_productos (flush (db w)) rs.
Proof.
  induction vs as [|v vs IH]; intros rs n w Hv Hs.
  - injection Hv as <-. exists (db w). simpl. rewrite Z.add_0_r.
    destruct w; repeat split; assumption.
  - destruct (as_products_cons _ _ _ Hv) as (r & rs' & Hr & Hrs & ->).
    destruct (sync_producto_typed repr_of n v r w Hr Hs) as (s1 & E1 & Hs1 & Ha1 & Hf1).
    cbn [for_fold]. unfold bind at 1. rewrite E1.
    destruct (IH rs' (n + (if snd (mirror_producto (flush (db w)) r) then 1 else 0))%Z
                 (set_db w s1) Hrs Hs1) as (s2 & E2 & Hs2 & Ha2 & Hf2).
    cbn [db set_db] in *. rewrite E2. exists s2.
    rewrite Hf1 in *. rewrite mirror_productos_cons.
    repeat split; try assumption; try congruence.
    f_equal. f_equal. cbn [news].
    rewrite mirror_producto_created.
    rewrite (news_ext _ _ _ _ (mirror_producto_has (flush (db w)) r)).
    destruct (has_producto (flush (db w)) (ApiProduct.title r)) eqn:E;
      cbn [negb List.length].
    + rewrite (news_ext _ _ _ (has_producto (flush (db w)))); [lia|].
      intros k. destruct (String.eqb_spec k (ApiProduct.title r)) as [->|N];
        [rewrite E|]; reflexivity.
    + lia.
Qed.

Lemma sync_products_to_db_typed repr_of limit w w0 vs rs :
  get_products limit w = (Ok (VList vs), w0) ->
  as_products vs = Some rs ->
  steady (db w) = true ->
  let created := news ApiProduct.title (has_producto (flush (db w))) rs in
  let count := Z.of_nat (List.length created) in
  sync_products_to_db repr_of limit w
  = (Ok count,
     logged (mkLog INFO ("Sincronizados " ++ str_of_int count ++ " nuevos productos") None)
            (set_db w0 (mirror_productos (flush (db w)) rs))).
Proof.
  intros Hg Hv Hs created count.
  destruct (get_products_frame _ _ _ _ Hg) as [Hdb _].
  unfold sync_products_to_db. unfold bind at 1. rewrite Hg.
  unfold bind at 1. cbn [lift iterate].
  rewrite <- Hdb in Hs.
  destruct (for_fold_sync_producto repr_of vs rs 0%Z w0 Hv Hs) as (s' & E & _ & _ & Hf).
  unfold bind at 1. rewrite E. rewrite Hdb in *.
  unfold bind, db_commit, with_db, commit, logger_info. cbn [db set_db].
  rewrite Hf. reflexivity.
Qed.

Lemma existsb_eqb_in k l : In k l -> existsb (String.eqb k) l = true.
Proof.
  intros H. apply existsb_exists. exists k. split; [exact H|apply String.eqb_refl].
Qed.

Lemma rows_created_names cats rs ps vs :
  rows_created cats rs ps vs ->
  map Producto.nombre ps = map (fun r => VStr (ApiProduct.title r)) rs.
Proof.
  induction 1 as [|r p v rs ps vs (Hn & _) _ IH]; simpl; [reflexivity|].
  rewrite Hn, IH. reflexivity.
Qed.

Lemma rows_created_refs cats rs ps vs :
  rows_created cats rs ps vs ->
  Forall (fun p => exists c, In c cats /\
                             Producto.id_categoria p = Categoria.id_categoria c) ps.
Proof.
  induction 1 as [|r p v rs ps vs (_ & _ & _ & (c & Hc & _ & Hi) & _) _ IH];
    constructor; eauto.
Qed.

(** The rows a run of [sync_products_to_db] leaves, when the fetch layer
    returned well-formed records and nothing waits in the session *)
Lemma sync_products_to_db_rows repr_of limit w w0 vs rs :
  get_products limit w = (Ok (VList vs), w0) ->
  as_products vs = Some rs ->
  pending (db w) = [] ->
  let created := news ApiProduct.title (has_producto (db w)) rs in
  exists w' C P V,
    sync_products_to_db repr_of limit w
      = (Ok (Z.of_nat (List.length created)), w') /\
    categorias (db w') = (categorias (db w) ++ C)%list /\
    productos (db w') = (productos (db w) ++ P)%list /\
    variantes (db w') = (variantes (db w) ++ V)%list /\
    pending (db w') = [] /\
    rows_created (categorias (db w')) created P V /\
    (forall k, has_producto (db w') k
               = existsb (String.eqb k) (map ApiProduct.title rs)
                 || has_producto (db w) k).
Proof.
  intros Hg Hv Hp created.
  pose proof (sync_products_to_db_typed repr_of limit w w0 vs rs Hg Hv
                (steady_clean _ Hp)) as E.
  rewrite (flush_clean _ Hp) in E. cbv zeta in E.
  destruct (mirror_productos_spec rs (db w)) as (C & P & V & HC & HP & HV & HQ & HR).
  eexists _, C, P, V. split; [exact E|]. cbn [db logged set_db].
  repeat split; try assumption.
  - rewrite HQ. exact Hp.
  - intros k. apply mirror_productos_has.
Qed.

(** ** The category a product refers to *)

(** A flush only appends to the categories. *)
Lemma categorias_fold_insert l : forall s,
  exists X, categorias (fold_left insert_entity l s) = (categorias s ++ X)%list.
Proof.
  induction l as [|e l IH]; intros s; simpl.
  - exists []. symmetry. apply app_nil_r.
  - destruct (IH (insert_entity s e)) as [X HX]. rewrite HX.
    destruct e; cbn [insert_entity categorias]; eauto.
    rewrite <- app_assoc. eauto.
Qed.

Lemma categorias_flush_incl s c :
  In c (categorias s) -> In c (categorias (flush s)).
Proof.
  intros H. destruct (categorias_fold_insert (pending s) (clear_pending s)) as [X HX].
  unfold flush. rewrite HX. apply in_or_app. left. exact H.
Qed.

Lemma find_or_create_categoria_found v w c w1 :
  find_or_create_categoria v w = (Ok c, w1) ->
  In c (categorias (db w1)) /\
  productos (flush (db w1)) = productos (flush (db w)) /\
  (In c (categorias (flush (db w))) \/ Categoria.id_categoria c <> None) /\
  exists s, subscript v "category" = Ok (VStr s) /\
            Categoria.nombre c = title s.
Proof.
  unfold find_or_create_categoria, bind, lift.
  destruct (subscript v "category") as [cv|e]; [|discriminate].
  destruct cv; cbn [str_title]; try discriminate.
  unfold query_categoria_first.
  destruct (find _ (categorias (before_query (db w)))) as [c'|] eqn:F.
  - intros H. injection H as <- <-. cbn [db set_db].
    apply find_some in F as [F1 F2]. apply String.eqb_eq in F2.
    rewrite flush_before_query. split; [exact F1|]. split; [reflexivity|].
    split; [|eauto]. left. rewrite <- flush_before_query.
    apply categorias_flush_incl, F1.
  - unfold db_add, db_flush, with_db, flushed_categoria. cbn [db set_db].
    rewrite flush_add, flush_before_query.
    intros H. injection H as <- <-. cbn [db set_db insert_entity categorias].
    rewrite last_last. split; [apply in_or_app; right; left; reflexivity|].
    split; [|split; [right; discriminate|eauto]].
    rewrite flush_clean; [reflexivity|]. cbn [pending]. apply pending_flush.
Qed.

Lemma productos_before_query_cases s :
  productos (before_query s) = productos s \/
  productos (before_query s) = productos (flush s).
Proof. unfold before_query. destruct (autoflush s); auto. Qed.

Lemma create_producto_outcome repr_of c n v w1 r w' :
  create_producto repr_of c n v w1 = (r, w') ->
  productos (db w') = productos (db w1) \/
  productos (db w') = productos (flush (db w1)) \/
  exists p,
    productos (db w') = (productos (flush (db w1)) ++ [p])%list /\
    Producto.id_categoria p = Categoria.id_categoria c /\
    Producto.id_producto p = Some (seq_producto (flush (db w1))).
Proof.
  unfold create_producto, bind, lift.
  destruct (subscript v "title") as [t|e].
  2:{ intros H. injection H as <- <-. left. reflexivity. }
  unfold query_producto_first.
  destruct (find _ (productos (before_query (db w1)))) as [p'|].
  { intros H. injection H as <- <-. cbn [db set_db].
    destruct (productos_before_query_cases (db w1)); auto. }
  unfold db_add, db_flush, with_db, flushed_producto. cbn [db set_db].
  rewrite flush_add, flush_before_query.
  intros H. right. right. eexists. 
  assert (D : db w' = insert_entity (flush (db w1))
                (EProducto (Producto.new t (Categoria.id_categoria c) "API Externa"))
              \/ exists x, db w' = add x (insert_entity (flush (db w1))
                (EProducto (Producto.new t (Categoria.id_categoria c) "API Externa")))).
  { destruct (subscript v "id"); [|injection H as <- <-; left; reflexivity].
    destruct (subscript v "price"); [|injection H as <- <-; left; reflexivity].
    destruct (subscript v "image"); [|injection H as <- <-; left; reflexivity].
    injection H as <- <-. right. eexists. reflexivity. }
  destruct D as [->|[x ->]]; cbn [add insert_entity productos];
    repeat split; reflexivity.
Qed.

Lemma find_or_create_categoria_productos v w c w1 :
  find_or_create_categoria v w = (Ok c, w1) ->
  productos (db w1) = productos (db w) \/
  productos (db w1) = productos (flush (db w)).
Proof.
  unfold find_or_create_categoria, bind, lift.
  destruct (subscript v "category") as [cv|e]; [|discriminate].
  destruct cv; cbn [str_title]; try discriminate.
  unfold query_categoria_first.
  destruct (find _ (categorias (before_query (db w)))) as [c'|].
  - intros H. injection H as <- <-. cbn [db set_db].
    apply productos_before_query_cases.
  - unfold db_add, db_flush, with_db, flushed_categoria. cbn [db set_db].
    rewrite flush_add, flush_before_query.
    intros H. injection H as <- <-. right. reflexivity.
Qed.

Lemma find_or_create_categoria_raise v w e w1 :
  find_or_create_categoria v w = (Raise e, w1) -> w1 = w.
Proof.
  unfold find_or_create_categoria, bind, lift.
  destruct (subscript v "category") as [cv|e'].
  2:{ intros H. injection H as _ <-. reflexivity. }
  destruct cv; cbn [str_title];
    try (intros H; injection H as _ <-; reflexivity).
  unfold query_categoria_first.
  destruct (find _ (categorias (before_query (db w)))); discriminate.
Qed.

Lemma create_producto_categorias repr_of c n v w1 r w' x :
  create_producto repr_of c n v w1 = (r, w') ->
  In x (categorias (db w1)) -> In x (categorias (db w')).
Proof.
  unfold create_producto, bind, lift.
  destruct (subscript v "title") as [t|e].
  2:{ intros H. injection H as <- <-. auto. }
  unfold query_producto_first.
  assert (B : In x (categorias (db w1)) ->
              In x (categorias (before_query (db w1)))).
  { unfold before_query. destruct (autoflush (db w1)); [apply categorias_flush_incl|auto]. }
  destruct (find _ (productos (before_query (db w1)))) as [p'|].
  { intros H. injection H as <- <-. exact B. }
  unfold db_add, db_flush, with_db, flushed_producto. cbn [db set_db].
  rewrite flush_add, flush_before_query.
  intros H Hx.
  assert (I : In x (categorias (insert_entity (flush (db w1))
                (EProducto (Producto.new t (Categoria.id_categoria c) "API Externa"))))).
  { cbn [insert_entity categorias]. apply categorias_flush_incl, Hx. }
  destruct (subscript v "id"); [|injection H as <- <-; exact I].
  destruct (subscript v "price"); [|injection H as <- <-; exact I].
  destruct (subscript v "image"); [|injection H as <- <-; exact I].
  injection H as <- <-. exact I.
Qed.

(** ** [sync_categories_to_db] on a list of names *)

Lemma has_categoria_mirror S nombre k :
  has_categoria (mirror_categoria S nombre) k
  = String.eqb k (title nombre) || has_categoria S k.
Proof.
  unfold mirror_categoria.
  destruct (find _ (categorias S)) as [c|] eqn:F.
  - destruct (String.eqb_spec k (title nombre)) as [->|N]; [|reflexivity].
    unfold has_categoria. rewrite existsb_find, F. reflexivity.
  - unfold has_categoria. cbn [insert_entity categorias].
    rewrite existsb_app.
    cbn [existsb categoria_named Categoria.nombre Categoria.new].
    rewrite orb_false_r, orb_comm, String.eqb_sym. reflexivity.
Qed.

Lemma mirror_categorias_has nombres : forall S k,
  has_categoria (mirror_categorias S nombres) k
  = existsb (String.eqb k) (map title nombres) || has_categoria S k.
Proof.
  induction nombres as [|n ns IH]; intros S k; [reflexivity|].
  unfold mirror_categorias in *. cbn [fold_left map existsb].
  rewrite IH, has_categoria_mirror.
  destruct (String.eqb k (title n)); simpl; [apply orb_true_r|reflexivity].
Qed.

Lemma mirror_categoria_old S nombre :
  has_categoria S (title nombre) = true -> mirror_categoria S nombre = S.
Proof.
  unfold has_categoria, mirror_categoria. rewrite existsb_find.
  destruct (find _ (categorias S)); [reflexivity|discriminate].
Qed.

Lemma mirror_categoria_new S nombre :
  has_categoria S (title nombre) = false ->
  mirror_categoria S nombre
  = insert_entity S (ECategoria (Categoria.new (title nombre))).
Proof.
  unfold has_categoria, mirror_categoria. rewrite existsb_find.
  destruct (find _ (categorias S)); [discriminate|reflexivity].
Qed.

(** What the reference loop leaves: the rows it met stay as they are, and
    each title-cased name that is new at its turn adds one category. *)
Lemma mirror_categorias_spec nombres : forall S,
  exists C,
    categorias (mirror_categorias S nombres) = (categorias S ++ C)%list /\
    productos (mirror_categorias S nombres) = productos S /\
    variantes (mirror_categorias S nombres) = variantes S /\
    pending (mirror_categorias S nombres) = pending S /\
    autoflush (mirror_categorias S nombres) = autoflush S /\
    map Categoria.nombre C
      = news (fun n => n) (has_categoria S) (map title nombres).
Proof.
  induction nombres as [|n ns IH]; intros S.
  - exists []. simpl. rewrite app_nil_r. repeat split.
  - change (mirror_categorias S (n :: ns))
      with (mirror_categorias (mirror_categoria S n) ns).
    cbn [map news].
    destruct (IH (mirror_categoria S n)) as (C & HC & HP & HV & HQ & HA & HN).
    rewrite (news_ext _ _ _ _ (has_categoria_mirror S n)) in HN.
    destruct (has_categoria S (title n)) eqn:E.
    + rewrite (mirror_categoria_old _ _ E) in *.
      exists C. repeat split; try assumption.
      rewrite HN. apply news_ext. intros k.
      destruct (String.eqb_spec k (title n)) as [->|N]; [rewrite E|]; reflexivity.
    + rewrite (mirror_categoria_new _ _ E) in *.
      cbn [insert_entity categorias productos variantes pending autoflush] in *.
      eexists (_ :: C). rewrite HC, <- app_assoc.
      repeat split; try assumption.
      cbn [map Categoria.nombre Categoria.new]. f_equal. exact HN.
Qed.

Lemma sync_categoria_str n nombre w :
  autoflush (db w) = true ->
  exists s',
    sync_categoria n (VStr nombre) w
      = (Ok (n + (if has_categoria (flush (db w)) (title nombre) then 0 else 1))%Z,
         set_db w s') /\
    autoflush s' = true /\
    flush s' = mirror_categoria (flush (db w)) nombre.
Proof.
  intros Ha. unfold sync_categoria, bind, lift. cbn [str_title].
  unfold query_categoria_first, before_query. rewrite Ha.
  unfold mirror_categoria, has_categoria. rewrite existsb_find.
  destruct (find _ (categorias (flush (db w)))) as [c|].
  - exists (flush (db w)). rewrite Z.add_0_r, autoflush_flush, flush_flush. auto.
  - unfold db_add, with_db, ret. cbn [db set_db]. eexists. split; [reflexivity|].
    rewrite flush_add, flush_flush. split; [|reflexivity].
    unfold add. cbn [autoflush]. rewrite autoflush_flush. exact Ha.
Qed.

Lemma for_fold_sync_categoria nombres : forall n w,
  autoflush (db w) = true ->
  exists s',
    for_fold (map VStr nombres) n sync_categoria w
      = (Ok (n + Z.of_nat (List.length
                             (news (fun x => x) (has_categoria (flush (db w)))
                                (map title nombres))))%Z,
         set_db w s') /\
    autoflush s' = true /\
    flush s' = mirror_categorias (flush (db w)) nombres.
Proof.
  induction nombres as [|x xs IH]; intros n w Ha.
  - exists (db w). simpl. rewrite Z.add_0_r. destruct w; auto.
  - destruct (sync_categoria_str n x w Ha) as (s1 & E1 & Ha1 & Hf1).
    cbn [map for_fold]. unfold bind at 1. rewrite E1.
    destruct (IH (n + (if has_categoria (flush (db w)) (title x) then 0 else 1))%Z
                 (set_db w s1) Ha1) as (s2 & E2 & Ha2 & Hf2).
    cbn [db set_db] in *. rewrite E2. exists s2.
    rewrite Hf1 in *. split; [|split; [assumption|exact Hf2]].
    f_equal. f_equal. cbn [news].
    rewrite (news_ext _ _ _ _ (has_categoria_mirror (flush (db w)) x)).
    destruct (has_categoria (flush (db w)) (title x)) eqn:E; cbn [List.length].
    + rewrite (news_ext _ _ _ (has_categoria (flush (db w)))); [lia|].
      intros k. destruct (String.eqb_spec k (title x)) as [->|N];
        [rewrite E|]; reflexivity.
    + lia.
Qed.

Lemma get_categories_frame w r w0 :
  get_categories w = (r, w0) -> db w0 = db w /\ net w0 = net w.
Proof.
  rewrite get_categories_run.
  destruct (failure_of _); intros H; injection H as <- <-; auto.
Qed.

Lemma sync_categories_to_db_names w w0 nombres :
  get_categories w = (Ok (VList (map VStr nombres)), w0) ->
  autoflush (db w) = true ->
  let created :=
    news (fun n => n) (has_categoria (flush (db w))) (map title nombres) in
  let count := Z.of_nat (List.length created) in
  sync_categories_to_db w
  = (Ok count,
     logged (mkLog INFO ("Sincronizadas " ++ str_of_int count ++ " nuevas categorías") None)
            (set_db w0 (mirror_categorias (flush (db w)) nombres))).
Proof.
  intros Hg Ha created count.
  destruct (get_categories_frame _ _ _ Hg) as [Hdb _].
  unfold sync_categories_to_db. unfold bind at 1. rewrite Hg.
  unfold bind at 1. cbn [lift iterate].
  rewrite <- Hdb in Ha.
  destruct (for_fold_sync_categoria nombres 0%Z w0 Ha) as (s' & E & _ & Hf).
  unfold bind at 1. rewrite E. rewrite Hdb in *.
  unfold bind, db_commit, with_db, commit, logger_info. cbn [db set_db].
  rewrite Hf. reflexivity.
Qed.

Lemma mirror_categorias_present nombres : forall S,
  (forall n, In n nombres -> has_categoria S (title n) = true) ->
  mirror_categorias S nombres = S.
Proof.
  induction nombres as [|n ns IH]; intros S H; [reflexivity|].
  change (mirror_categorias S (n :: ns))
    with (mirror_categorias (mirror_categoria S n) ns).
  rewrite (mirror_categoria_old S n (H n (or_introl eq_refl))).
  apply IH. intros m Hm. apply H. right. exact Hm.
Qed.

(** ** Search and recommendations *)

Lemma filter_r_spec {A} (p : A -> result bool) (good keep : A -> bool) :
  (forall x, good x = true -> p x = Ok (keep x)) ->
  (forall x, good x = false -> exists e, p x = Raise e) ->
  forall xs,
    if forallb good xs then filter_r p xs = Ok (filter keep xs)
    else exists e, filter_r p xs = Raise e.
Proof.
  intros Hg Hb. induction xs as [|x xs IH]; simpl; [reflexivity|].
  destruct (good x) eqn:G; simpl.
  - rewrite (Hg x G). simpl. destruct (forallb good xs).
    + rewrite IH. simpl. destruct (keep x); reflexivity.
    + destruct IH as [e ->]. simpl. eauto.
  - destruct (Hb x G) as [e ->]. simpl. eauto.
Qed.

Lemma title_matches_good query v :
  has_title v = true -> title_matches query v = Ok (matches query v).
Proof.
  unfold has_title, matches, title_of, field, title_matches.
  destruct (subscript v "title") as [[]|]; try discriminate. reflexivity.
Qed.

Lemma title_matches_bad query v :
  has_title v = false -> exists e, title_matches query v = Raise e.
Proof.
  unfold has_title, title_of, field, title_matches.
  destruct (subscript v "title") as [[]|]; try discriminate; simpl; eauto.
Qed.

Lemma is_other_product_good product_id v :
  has_id v = true -> is_other_product product_id v = Ok (other_than product_id v).
Proof.
  unfold has_id, other_than, field, is_other_product.
  destruct (subscript v "id"); [reflexivity|discriminate].
Qed.

Lemma is_other_product_bad product_id v :
  has_id v = false -> exists e, is_other_product product_id v = Raise e.
Proof.
  unfold has_id, field, is_other_product.
  destruct (subscript v "id"); [discriminate|]. simpl. eauto.
Qed.

(** The pool of a search, whatever the category *)
Lemma search_pool_run repr_of category w :
  exists w0,
    match category with
    | Some c =>
        if truthy (VStr c) then get_products_by_category repr_of (VStr c)
        else get_products 100
    | None => get_products 100
    end w = (Ok (fetched (net w (search_url category))), w0) /\
    calls w0 = (calls w ++ [search_url category])%list /\
    db w0 = db w /\ net w0 = net w.
Proof.
  unfold fetched.
  destruct category as [[|a c]|]; cbn [truthy String.eqb negb search_url].
  - rewrite get_products_run. destruct (failure_of _); eexists; repeat split.
  - rewrite get_products_by_category_run. cbn [format].
    destruct (failure_of _); eexists; repeat split.
  - rewrite get_products_run. destruct (failure_of _); eexists; repeat split.
Qed.

Lemma search_products_run repr_of query category w :
  exists w',
    search_products repr_of query category w
      = (Ok (search_spec query (fetched (net w (search_url category)))), w') /\
    calls w' = (calls w ++ [search_url category])%list /\
    db w' = db w /\ net w' = net w.
Proof.
  destruct (search_pool_run repr_of category w) as (w0 & E & Hc & Hd & Hn).
  unfold search_products, try_except, bind at 1. rewrite E.
  unfold search_spec, bind at 1, lift at 1.
  destruct (iterate _) as [pool|e].
  2:{ cbn. eexists. repeat split; assumption. }
  unfold bind at 1, lift.
  pose proof (filter_r_spec (title_matches query) has_title (matches query)
                (title_matches_good query) (title_matches_bad query) pool) as F.
  destruct (forallb has_title pool).
  - rewrite F. cbn. eexists. repeat split; assumption.
  - destruct F as [e ->]. cbn. eexists. repeat split; assumption.
Qed.

Lemma get_product_recommendations_run repr_of product_id limit w :
  let base := fetched_one (net w (url_product product_id)) in
  exists w',
    get_product_recommendations repr_of product_id limit w
      = (Ok match base_category base with
            | Some category =>
                recommend_sliced product_id limit
                  (fetched (net w (url_category (format repr_of category))))
            | None => []
            end, w') /\
    calls w'
      = (calls w ++ url_product product_id ::
           match base_category base with
           | Some category => [url_category (format repr_of category)]
           | None => []
           end)%list /\
    db w' = db w /\ net w' = net w.
Proof.
  intros base. unfold get_product_recommendations, try_except, bind at 1.
  rewrite get_product_by_id_run. unfold base_category, base, fetched_one, field.
  destruct (failure_of (net w (url_product product_id))) as [e|].
  { cbn. eexists. repeat split. }
  destruct (truthy (body_of _)).
  2:{ cbn. eexists. repeat split. }
  cbn [negb]. unfold bind at 1, lift at 1.
  destruct (subscript _ "category") as [category|e].
  2:{ cbn. eexists. repeat split. }
  unfold bind at 1. rewrite get_products_by_category_run. cbv zeta.
  cbn [net called]. unfold recommend_sliced, fetched.
  set (url := url_category (format repr_of category)).
  assert (G : forall w0 products,
             db w0 = db w -> net w0 = net w ->
             calls w0 = (calls w ++ [url_product product_id; url])%list ->
             exists w',
               match
                 (pool <- lift (iterate products) ;;
                  recommendations <-
                    lift (filter_r (is_other_product product_id) pool) ;;
                  ret (slice_to limit recommendations)) w0
               with
               | (Ok a, w1) => (Ok a, w1)
               | (Raise e, w1) =>
                   if is_Exception e
                   then (logger_error "Error al obtener recomendaciones: " e ;;
                         ret []) w1
                   else (Raise e, w1)
               end
               = (Ok match iterate products with
                     | Ok pool =>
                         if forallb has_id pool
                         then slice_to limit (filter (other_than product_id) pool)
                         else []
                     | Raise _ => []
                     end, w') /\
               calls w' = (calls w ++ [url_product product_id; url])%list /\
               db w' = db w /\ net w' = net w).
  { intros w0 products Hd Hn Hc. unfold bind at 1, lift at 1.
    destruct (iterate products) as [pool|e].
    2:{ cbn. eexists. repeat split; assumption. }
    unfold bind at 1, lift.
    pose proof (filter_r_spec (is_other_product product_id) has_id
                  (other_than product_id)
                  (is_other_product_good product_id)
                  (is_other_product_bad product_id) pool) as F.
    destruct (forallb has_id pool).
    - rewrite F. cbn. eexists. repeat split; assumption.
    - destruct F as [e ->]. cbn. eexists. repeat split; assumption. }
  destruct (failure_of (net w url)); apply G; cbn; try reflexivity;
    rewrite <- app_assoc; reflexivity.
Qed.

(** ** Substrings *)

Lemma prefix_iff h : forall n,
  prefix n h = true <-> exists post, h = n ++ post.
Proof.
  induction h as [|b h IH]; intros [|a n]; simpl.
  - split; [exists ""; reflexivity|reflexivity].
  - split; [discriminate|intros [post H]; discriminate].
  - split; [eexists; reflexivity|reflexivity].
  - destruct (ascii_dec a b) as [->|N].
    + rewrite IH. split; intros [post H]; exists post; congruence.
    + split; [discriminate|]. intros [post H]. congruence.
Qed.

(** [contains needle hay] holds exactly when [needle] is a substring. *)
Lemma contains_iff h : forall n,
  contains n h = true <-> exists pre post, h = pre ++ n ++ post.
Proof.
  induction h as [|b h IH]; intros n.
  - cbn [contains]. rewrite orb_false_r, prefix_iff. split.
    + intros [post H]. exists "", post. exact H.
    + intros [[|a pre] [post H]]; [exists post; exact H|discriminate].
  - cbn [contains]. rewrite orb_true_iff, prefix_iff, IH. split.
    + intros [[post H]|(pre & post & H)].
      * exists "", post. exact H.
      * exists (String b pre), post. simpl. rewrite H. reflexivity.
    + intros ([|a pre] & post & H).
      * left. exists post. exact H.
      * right. exists pre, post. simpl in H. congruence.
Qed.

(** ** Runs that cannot raise *)




(** A well-formed product record is one the loop can process. *)
Lemma as_product_syncable v r : as_product v = Some r -> syncable v = true.
Proof.
  intros Hv.
  destruct (as_product_fields v r Hv) as (d & -> & Hi & Ht & Hc & Hp & Him).
  unfold syncable. rewrite Hc, Ht, Hi, Hp, Him. reflexivity.
Qed.




(** ** The operations do not change what the API answers *)

Lemma keeps_net_bind {A B} (m : Py A) (k : A -> Py B) :
  keeps_net m -> (forall a, keeps_net (k a)) -> keeps_net (bind m k).
Proof.
  intros Hm Hk w r w'. unfold bind.
  destruct (m w) as [[a|e] w1] eqn:E; intros H.
  - rewrite (Hk a _ _ _ H). eapply Hm, E.
  - injection H as <- <-. eapply Hm, E.
Qed.

Lemma keeps_net_try {A} (m : Py A) (catches : exn -> bool) (h : exn -> Py A) :
  keeps_net m -> (forall e, keeps_net (h e)) -> keeps_net (try_except m catches h).
Proof.
  intros Hm Hh w r w'. unfold try_except.
  destruct (m w) as [[a|e] w1] eqn:E; intros H.
  - injection H as <- <-. eapply Hm, E.
  - destruct (catches e).
    + rewrite (Hh e _ _ _ H). eapply Hm, E.
    + injection H as <- <-. eapply Hm, E.
Qed.

Lemma keeps_net_for_fold {A S} (body : S -> A -> Py S) (xs : list A) :
  (forall acc x, keeps_net (body acc x)) ->
  forall acc, keeps_net (for_fold xs acc body).
Proof.
  intros Hb. induction xs as [|x xs IH]; intros acc; simpl.
  - intros w r w' H. injection H as <- <-. reflexivity.
  - apply keeps_net_bind; [apply Hb|]. intros a. apply IH.
Qed.

Lemma keeps_net_step {A} (f : World -> result A * World) :
  (forall w, net (snd (f w)) = net w) -> keeps_net f.
Proof. intros H w r w' E. specialize (H w). rewrite E in H. exact H. Qed.

Lemma keeps_net_requests_get url : keeps_net (requests_get url).
Proof.
  apply keeps_net_step. intros w. unfold requests_get.
  destruct (net w url); reflexivity.
Qed.

Lemma keeps_net_raise_for_status r : keeps_net (raise_for_status r).
Proof.
  unfold raise_for_status.
  destruct (_ && _); apply keeps_net_step; intros w; reflexivity.
Qed.

Ltac keeps_net_tac :=
  repeat first
    [ apply keeps_net_requests_get
    | apply keeps_net_raise_for_status
    | apply keeps_net_bind; [|intros ?]
    | apply keeps_net_try; [|intros ?]
    | apply keeps_net_for_fold; intros ? ?
    | apply keeps_net_step; intros ?; reflexivity
    | match goal with
      | |- keeps_net (match ?x with _ => _ end) => destruct x
      | |- keeps_net (if ?x then _ else _) => destruct x
      end ].

Lemma keeps_net_get_products limit : keeps_net (get_products limit).
Proof. unfold get_products. keeps_net_tac. Qed.

Lemma keeps_net_get_products_by_category repr_of category :
  keeps_net (get_products_by_category repr_of category).
Proof. unfold get_products_by_category. keeps_net_tac. Qed.

Lemma keeps_net_sync_producto repr_of n v : keeps_net (sync_producto repr_of n v).
Proof.
  unfold sync_producto, find_or_create_categoria, create_producto,
    db_add, db_flush. keeps_net_tac.
Qed.



Lemma keeps_net_search_products repr_of query category :
  keeps_net (search_products repr_of query category).
Proof.
  unfold search_products. keeps_net_tac.
Qed.

(** ** Fetches in terms of the reply *)






(** * The properties of the specification *)

(** C7: when the HTTP GET of a fetch operation meets a transport error or an
    error status (or, past these, a body that [response.json()] cannot
    decode), the operation logs the error and returns the empty list
    ([get_categories], [get_products], [get_products_by_category]) or None
    ([get_product_by_id]); it never raises. When [get_categories] fails this
    way, [sync_categories_to_db] returns 0 and adds no object to the
    session: it only commits what the session held. *)
Theorem fetch_errors_become_defaults :
  forall (repr_of : value -> string) (w : World) (limit product_id : Z)
         (category : value),
    (forall e,
        failure_of (net w url_categories) = Some e ->
        get_categories w
          = (Ok (VList []),
             logged (mkLog ERROR "Error al obtener categorías: " (Some e))
                    (called url_categories w)) /\
        exists w',
          sync_categories_to_db w = (Ok 0%Z, w') /\
          db w' = commit (db w) /\
          (pending (db w) = [] -> db w' = db w)) /\
    (forall e,
        failure_of (net w (url_products limit)) = Some e ->
        get_products limit w
          = (Ok (VList []),
             logged (mkLog ERROR "Error al obtener productos: " (Some e))
                    (called (url_products limit) w))) /\
    (forall e,
        failure_of (net w (url_product product_id)) = Some e ->
        get_product_by_id product_id w
          = (Ok VNone,
             logged (mkLog ERROR
                       ("Error al obtener producto "
                          ++ str_of_int product_id ++ ": ") (Some e))
                    (called (url_product product_id) w))) /\
    (forall e,
        failure_of (net w (url_category (format repr_of category))) = Some e ->
        get_products_by_category repr_of category w
          = (Ok (VList []),
             logged (mkLog ERROR
                       ("Error al obtener productos de categoría "
                          ++ format repr_of category ++ ": ") (Some e))
                    (called (url_category (format repr_of category)) w))).
Proof.
  intros repr_of w limit product_id category.
  split; [|split; [|split]]; intros e H.
  - split; [rewrite get_categories_run, H; reflexivity|].
    unfold sync_categories_to_db. unfold bind at 1.
    rewrite get_categories_run, H. cbn. eexists. split; [reflexivity|].
    cbn. split; [reflexivity|]. intros P. apply flush_clean, P.
  - rewrite get_products_run, H. reflexivity.
  - rewrite get_product_by_id_run, H. reflexivity.
  - pose proof (get_products_by_category_run repr_of category w) as E.
    cbv zeta in E. rewrite E, H. reflexivity.
Qed.

Lemma fetch_errors_become_defaults_witness :
  fst (get_categories (world_of offline (empty_store true))) = Ok (VList []) /\
  (exists w',
      sync_categories_to_db (world_of unavailable (empty_store true)) = (Ok 0%Z, w') /\
      db w' = empty_store true) /\
  fst (get_products 50 (world_of unavailable (empty_store true))) = Ok (VList []) /\
  fst (get_product_by_id 9 (world_of catalog (empty_store true))) = Ok VNone /\
  fst (get_products_by_category plain_repr (VStr "toys")
         (world_of catalog (empty_store true))) = Ok (VList []).
Proof.
  split; [|split; [|split; [|split]]].
  - destruct (fetch_errors_become_defaults plain_repr
                (world_of offline (empty_store true)) 50 9 (VStr "toys"))
      as (H & _).
    destruct (H ConnectionError eq_refl) as [E _]. rewrite E. reflexivity.
  - destruct (fetch_errors_become_defaults plain_repr
                (world_of unavailable (empty_store true)) 50 9 (VStr "toys"))
      as (H & _).
    destruct (H (HTTPError 503) eq_refl) as [_ (w' & E & _ & D)].
    exists w'. split; [exact E|]. apply D. reflexivity.
  - destruct (fetch_errors_become_defaults plain_repr
                (world_of unavailable (empty_store true)) 50 9 (VStr "toys"))
      as (_ & H & _).
    rewrite (H (HTTPError 503) eq_refl). reflexivity.
  - destruct (fetch_errors_become_defaults plain_repr
                (world_of catalog (empty_store true)) 50 9 (VStr "toys"))
      as (_ & _ & H & _).
    rewrite (H (HTTPError 404) eq_refl). reflexivity.
  - destruct (fetch_errors_become_defaults plain_repr
                (world_of catalog (empty_store true)) 50 9 (VStr "toys"))
      as (_ & _ & _ & H).
    rewrite (H ConnectionError eq_refl). reflexivity.
Defined.

(** C4, on the code: the loop of [sync_categories_to_db] looks for an
    existing row before [db.add] but does not flush after it, as the loop of
    [sync_products_to_db] does for the category it adds. On a session that
    does not autoflush, the query of a later name does not see the category
    added for an earlier one: the fetched names "men's clothing" and
    "MEN'S CLOTHING", which have one title-cased form, create two categories
    of that name, and the count returned is 3 where the distinct new names
    are 2. *)
Theorem sync_categories_duplicates_without_autoflush :
  exists w1,
    sync_categories_to_db (world_of catalog (empty_store false)) = (Ok 3%Z, w1) /\
    map Categoria.nombre (categorias (db w1))
      = ["Men'S Clothing"; "Men'S Clothing"; "Jewelery"] /\
    ~ NoDup (map Categoria.nombre (categorias (db w1))).
Proof.
  eexists. split; [reflexivity|]. split; [reflexivity|].
  cbn. intros H. inversion H as [|x l N _]. apply N. left. reflexivity.
Qed.

(** C5: for every list of product records the fetch layer returns and every
    store, [sync_products_to_db] creates exactly one Product and exactly one
    Variant for each record whose title the store does not hold at its turn
    (one for each distinct title absent from the store), keeps the rows the
    store holds, and returns the number of products created; run again on
    records with the same titles, whatever their prices and images, it
    creates no Product and no Variant and returns 0. The session holds no
    unflushed object when the run starts, as after any commit. *)
Theorem sync_products_creates_each_new_title_once :
  forall (repr_of : value -> string) (limit : Z) (w w0 : World)
         (vs : list value) (rs : list ApiProduct.t),
    get_products limit w = (Ok (VList vs), w0) ->
    as_products vs = Some rs ->
    pending (db w) = [] ->
    let created := news ApiProduct.title (has_producto (db w)) rs in
    NoDup (map ApiProduct.title created) /\
    (forall t, In t (map ApiProduct.title created) <->
               In t (map ApiProduct.title rs) /\ has_producto (db w) t = false) /\
    exists w1 P V,
      sync_products_to_db repr_of limit w
        = (Ok (Z.of_nat (List.length created)), w1) /\
      productos (db w1) = (productos (db w) ++ P)%list /\
      variantes (db w1) = (variantes (db w) ++ V)%list /\
      List.length P = List.length created /\
      List.length V = List.length created /\
      map ProductoVariante.id_producto V = map Producto.id_producto P /\
      forall repr_of' limit' w2 w3 vs' rs',
        db w2 = db w1 ->
        get_products limit' w2 = (Ok (VList vs'), w3) ->
        as_products vs' = Some rs' ->
        map ApiProduct.title rs' = map ApiProduct.title rs ->
        exists w4,
          sync_products_to_db repr_of' limit' w2 = (Ok 0%Z, w4) /\
          productos (db w4) = productos (db w1) /\
          variantes (db w4) = variantes (db w1).
Proof.
  intros repr_of limit w w0 vs rs Hg Hv Hp created. subst created.
  destruct (news_spec ApiProduct.title rs (has_producto (db w))) as [ND I].
  split; [exact ND|]. split; [exact I|].
  destruct (sync_products_to_db_rows repr_of limit w w0 vs rs Hg Hv Hp)
    as (w1 & C & P & V & E & HC & HP & HV & HQ & HR & Hhas).
  destruct (rows_created_length _ _ _ _ HR) as [L1 L2].
  exists w1, P, V. repeat split; try assumption.
  - clear - HR. induction HR as [|r p v rs' ps vs' Hrow _ IH]; [reflexivity|].
    simpl. rewrite IH. f_equal. apply Hrow.
  - intros repr_of' limit' w2 w3 vs' rs' Hd Hg' Hv' Ht.
    assert (P2 : pending (db w2) = []) by (rewrite Hd; exact HQ).
    destruct (sync_products_to_db_rows repr_of' limit' w2 w3 vs' rs' Hg' Hv' P2)
      as (w4 & C' & P' & V' & E' & _ & HP' & HV' & _ & HR' & _).
    rewrite news_all_present in E', HR'.
    + inversion HR'; subst. exists w4. rewrite HP', HV', !app_nil_r, Hd. auto.
    + intros r Hr. rewrite Hd, Hhas, <- Ht.
      rewrite (existsb_eqb_in _ _ (in_map ApiProduct.title _ _ Hr)). reflexivity.
    + intros r Hr. rewrite Hd, Hhas, <- Ht.
      rewrite (existsb_eqb_in _ _ (in_map ApiProduct.title _ _ Hr)). reflexivity.
Qed.

Lemma sync_products_creates_each_new_title_once_witness :
  exists w1,
    sync_products_to_db plain_repr 50 (world_of catalog (empty_store false))
      = (Ok 2%Z, w1) /\
    List.length (productos (db w1)) = 2%nat /\
    List.length (variantes (db w1)) = 2%nat /\
    exists w4,
      sync_products_to_db plain_repr 50 (world_of catalog_repriced (db w1))
        = (Ok 0%Z, w4) /\
      productos (db w4) = productos (db w1) /\
      variantes (db w4) = variantes (db w1).
Proof.
  destruct (sync_products_creates_each_new_title_once plain_repr 50
              (world_of catalog (empty_store false))
              (called (url_products 50) (world_of catalog (empty_store false)))
              [shirt; lamp; shirt]
              [ApiProduct.mk 1 "Shirt" "men's clothing" price_9_99 (VStr "u1");
               ApiProduct.mk 2 "Lamp" "home" (VInt 30) (VStr "u2");
               ApiProduct.mk 1 "Shirt" "men's clothing" price_9_99 (VStr "u1")]
              eq_refl eq_refl eq_refl)
    as (_ & _ & w1 & P & V & E & HP & HV & LP & LV & _ & R).
  exists w1. split; [exact E|].
  split; [rewrite HP; exact LP|]. split; [rewrite HV; exact LV|].
  apply (R plain_repr 50%Z (world_of catalog_repriced (db w1))
           (called (url_products 50) (world_of catalog_repriced (db w1)))
           [record 1 "Shirt" "men's clothing" (VInt 11) "u1-new"; lamp; shirt]
           [ApiProduct.mk 1 "Shirt" "men's clothing" (VInt 11) (VStr "u1-new");
            ApiProduct.mk 2 "Lamp" "home" (VInt 30) (VStr "u2");
            ApiProduct.mk 1 "Shirt" "men's clothing" price_9_99 (VStr "u1")]);
    reflexivity.
Defined.

(** C8: for every Product [sync_products_to_db] creates, one Variant is
    created in the same run; it refers to the product and carries the SKU
    "API-" followed by the id of the record, the size "M", the color "N/A"
    and the price and the image of the record as they came; the product
    carries the brand "API Externa"; the products and the variants the
    store held stay as they are, at the head of their tables. *)
Theorem sync_products_variant_of_each_new_product :
  forall (repr_of : value -> string) (limit : Z) (w w0 : World)
         (vs : list value) (rs : list ApiProduct.t),
    get_products limit w = (Ok (VList vs), w0) ->
    as_products vs = Some rs ->
    pending (db w) = [] ->
    exists w1 P V,
      sync_products_to_db repr_of limit w = (Ok (Z.of_nat (List.length P)), w1) /\
      productos (db w1) = (productos (db w) ++ P)%list /\
      variantes (db w1) = (variantes (db w) ++ V)%list /\
      rows_created (categorias (db w1))
        (news ApiProduct.title (has_producto (db w)) rs) P V.
Proof.
  intros repr_of limit w w0 vs rs Hg Hv Hp.
  destruct (sync_products_to_db_rows repr_of limit w w0 vs rs Hg Hv Hp)
    as (w1 & C & P & V & E & HC & HP & HV & HQ & HR & Hhas).
  destruct (rows_created_length _ _ _ _ HR) as [L _].
  exists w1, P, V. rewrite L. auto.
Qed.

Lemma sync_products_variant_of_each_new_product_witness :
  exists w1 p v,
    sync_products_to_db plain_repr 1 (world_of catalog (empty_store true))
      = (Ok 1%Z, w1) /\
    productos (db w1) = [p] /\
    variantes (db w1) = [v] /\
    Producto.marca p = "API Externa" /\
    ProductoVariante.id_producto v = Producto.id_producto p /\
    ProductoVariante.sku v = "API-1" /\
    ProductoVariante.talla v = "M" /\
    ProductoVariante.color v = "N/A" /\
    ProductoVariante.precio v = price_9_99 /\
    ProductoVariante.image_url v = VStr "u1".
Proof.
  destruct (sync_products_variant_of_each_new_product plain_repr 1
              (world_of catalog (empty_store true))
              (called (url_products 1) (world_of catalog (empty_store true)))
              [shirt]
              [ApiProduct.mk 1 "Shirt" "men's clothing" price_9_99 (VStr "u1")]
              eq_refl eq_refl eq_refl)
    as (w1 & P & V & E & HP & HV & HR).
  cbn in HR. inversion HR as [|r p v rs ps vs' Hrow Hrest]; subst.
  inversion Hrest; subst.
  destruct Hrow as (_ & Hm & _ & _ & Hv1 & Hv2 & Hv3 & Hv4 & Hv5 & Hv6).
  exists w1, p, v. repeat split; assumption.
Defined.

(** C1, as amended: the Product created for a fetched record whose title
    the store does not hold has the title of the record as its name, as it
    came: the service title-cases the names of categories, not the names of
    products. *)
Theorem sync_products_names_are_source_titles :
  forall (repr_of : value -> string) (limit : Z) (w w0 : World)
         (vs : list value) (rs : list ApiProduct.t),
    get_products limit w = (Ok (VList vs), w0) ->
    as_products vs = Some rs ->
    pending (db w) = [] ->
    exists w1 P,
      sync_products_to_db repr_of limit w = (Ok (Z.of_nat (List.length P)), w1) /\
      productos (db w1) = (productos (db w) ++ P)%list /\
      map Producto.nombre P
        = map (fun r => VStr (ApiProduct.title r))
              (news ApiProduct.title (has_producto (db w)) rs).
Proof.
  intros repr_of limit w w0 vs rs Hg Hv Hp.
  destruct (sync_products_to_db_rows repr_of limit w w0 vs rs Hg Hv Hp)
    as (w1 & C & P & V & E & HC & HP & HV & HQ & HR & Hhas).
  destruct (rows_created_length _ _ _ _ HR) as [L _].
  exists w1, P. rewrite L. split; [exact E|]. split; [exact HP|].
  eapply rows_created_names, HR.
Qed.

Lemma sync_products_names_are_source_titles_witness :
  exists w1 n,
    sync_products_to_db plain_repr 50 (world_of catalog_lower (empty_store true))
      = (Ok n, w1) /\
    map Producto.nombre (productos (db w1)) = [VStr "blue shirt"].
Proof.
  destruct (sync_products_names_are_source_titles plain_repr 50
              (world_of catalog_lower (empty_store true))
              (called (url_products 50) (world_of catalog_lower (empty_store true)))
              [blue_shirt]
              [ApiProduct.mk 3 "blue shirt" "men's clothing" (VInt 12) (VStr "u3")]
              eq_refl eq_refl eq_refl)
    as (w1 & P & E & HP & HN).
  exists w1, (Z.of_nat (List.length P)). split; [exact E|].
  rewrite HP, map_app, HN. reflexivity.
Defined.

(** C1, as stated, fails: a record whose title is "blue shirt" creates a
    product named "blue shirt", not "Blue Shirt". *)
Lemma product_name_is_not_title_cased :
  exists w1,
    sync_products_to_db plain_repr 50 (world_of catalog_lower (empty_store true))
      = (Ok 1%Z, w1) /\
    map Producto.nombre (productos (db w1)) = [VStr "blue shirt"] /\
    title "blue shirt" = "Blue Shirt" /\
    map Producto.nombre (productos (db w1)) <> [VStr (title "blue shirt")].
Proof.
  eexists. split; [reflexivity|]. split; [reflexivity|]. split; [reflexivity|].
  cbn. discriminate.
Qed.

(** C6: whenever a turn of the loop of [sync_products_to_db] creates a
    Product, whatever the record and the session, the Category row the
    product refers to is in the store before the product is created: the
    category was found there, or was added and flushed, which gave it its
    id, by [find_or_create_categoria]; the product carries that id. A turn that creates no product leaves
    the products of the session as they were, flushed or not. Hence every
    product a run creates refers to a category row of the store. *)
Theorem product_refers_to_existing_category :
  (forall (repr_of : value -> string) (n : Z) (v : value) (w : World)
          (r : result Z) (w' : World),
      sync_producto repr_of n v w = (r, w') ->
      (productos (db w') = productos (db w) \/
       productos (db w') = productos (flush (db w))) \/
      exists c w1 p,
        find_or_create_categoria v w = (Ok c, w1) /\
        In c (categorias (db w1)) /\
        (In c (categorias (flush (db w))) \/ Categoria.id_categoria c <> None) /\
        productos (db w') = (productos (flush (db w)) ++ [p])%list /\
        productos (flush (db w1)) = productos (flush (db w)) /\
        Producto.id_categoria p = Categoria.id_categoria c /\
        In c (categorias (db w'))) /\
  (forall (repr_of : value -> string) (limit : Z) (w w0 : World)
          (vs : list value) (rs : list ApiProduct.t),
      get_products limit w = (Ok (VList vs), w0) ->
      as_products vs = Some rs ->
      pending (db w) = [] ->
      exists w1 P,
        sync_products_to_db repr_of limit w = (Ok (Z.of_nat (List.length P)), w1) /\
        productos (db w1) = (productos (db w) ++ P)%list /\
        Forall (fun p => exists c,
                    In c (categorias (db w1)) /\
                    Producto.id_categoria p = Categoria.id_categoria c) P).
Proof.
  split.
  - intros repr_of n v w r w'. unfold sync_producto, bind.
    destruct (find_or_create_categoria v w) as [[c|e] w1] eqn:F.
    + intros H.
      destruct (find_or_create_categoria_found _ _ _ _ F) as (Hin & Hfl & Hid & _).
      pose proof (create_producto_categorias _ _ _ _ _ _ _ c H Hin) as Hin'.
      apply create_producto_outcome in H as [H|[H|(p & H1 & H2 & _)]].
      * left. rewrite H. eapply find_or_create_categoria_productos, F.
      * left. right. rewrite H. exact Hfl.
      * right. exists c, w1, p. rewrite <- Hfl. auto 10.
    + intros H. injection H as <- <-.
      rewrite (find_or_create_categoria_raise _ _ _ _ F). auto.
  - intros repr_of limit w w0 vs rs Hg Hv Hp.
    destruct (sync_products_to_db_rows repr_of limit w w0 vs rs Hg Hv Hp)
      as (w1 & C & P & V & E & HC & HP & HV & HQ & HR & Hhas).
    destruct (rows_created_length _ _ _ _ HR) as [L _].
    exists w1, P. rewrite L. split; [exact E|]. split; [exact HP|].
    eapply rows_created_refs, HR.
Qed.

Lemma product_refers_to_existing_category_witness :
  (exists c p,
      fst sample_turn = Ok 1%Z /\
      productos (db (snd sample_turn)) = [p] /\
      In c (categorias (db (snd sample_turn))) /\
      Producto.id_categoria p = Categoria.id_categoria c /\
      Categoria.id_categoria c = Some 1%Z) /\
  (exists w1 P,
      sync_products_to_db plain_repr 50 (world_of catalog (empty_store false))
        = (Ok (Z.of_nat (List.length P)), w1) /\
      productos (db w1) = P /\
      Forall (fun p => exists c,
                  In c (categorias (db w1)) /\
                  Producto.id_categoria p = Categoria.id_categoria c) P).
Proof.
  destruct product_refers_to_existing_category as [Turn Run]. split.
  - destruct (Turn plain_repr 0%Z shirt
                (world_of offline (empty_store false))
                (fst sample_turn) (snd sample_turn)
                (surjective_pairing sample_turn))
      as [[H|H]|(c & w1 & p & F & Hin & _ & HP & _ & Hid & Hin')].
    + discriminate H.
    + discriminate H.
    + exists c, p. split; [reflexivity|].
      split; [exact HP|]. split; [exact Hin'|]. split; [exact Hid|].
      injection F as <- _. reflexivity.
  - destruct (Run plain_repr 50%Z
                (world_of catalog (empty_store false))
                (called (url_products 50) (world_of catalog (empty_store false)))
                [shirt; lamp; shirt]
                [ApiProduct.mk 1 "Shirt" "men's clothing" price_9_99 (VStr "u1");
                 ApiProduct.mk 2 "Lamp" "home" (VInt 30) (VStr "u2");
                 ApiProduct.mk 1 "Shirt" "men's clothing" price_9_99 (VStr "u1")]
                eq_refl eq_refl eq_refl)
      as (w1 & P & E & HP & HF).
    exists w1, P. split; [exact E|]. split; [exact HP|exact HF].
Defined.

Lemma in_firstn {A} (n : nat) (l : list A) (x : A) : In x (firstn n l) -> In x l.
Proof.
  intros H. rewrite <- (firstn_skipn n l). apply in_or_app. left. exact H.
Qed.

Lemma search_spec_matches query products p :
  In p (search_spec query products) ->
  exists t pre post,
    title_of p = Some t /\ lower t = pre ++ lower query ++ post.
Proof.
  unfold search_spec. destruct (iterate products) as [pool|e]; [|intros []].
  destruct (forallb has_title pool); [|intros []].
  intros H. apply in_firstn, filter_In in H as [_ H].
  unfold matches in H. destruct (title_of p) as [t|]; [|discriminate].
  apply contains_iff in H as (pre & post & H). eauto.
Qed.

(** C9, as amended: [search_products] draws its pool from
    [get_products_by_category] when a category that is not the empty text is
    given, and from [get_products 100] when the category is absent or
    empty; it returns the pool records whose title contains the query as a
    substring, letter case apart, in the order of the pool, at most 20 of
    them; when the pool is not a sequence of records with a str title, it
    returns the empty list. It never raises and leaves the session alone. *)
Theorem search_products_filters_the_pool :
  forall (repr_of : value -> string) (query : string)
         (category : option string) (w : World),
    let pool := fetched (net w (search_url category)) in
    exists w',
      search_products repr_of query category w
        = (Ok (search_spec query pool), w') /\
      calls w' = (calls w ++ [search_url category])%list /\
      db w' = db w /\
      forall p, In p (search_spec query pool) ->
                exists t pre post,
                  title_of p = Some t /\ lower t = pre ++ lower query ++ post.
Proof.
  intros repr_of query category w pool.
  destruct (search_products_run repr_of query category w) as (w' & E & Hc & Hd & _).
  exists w'. repeat split; try assumption.
  apply search_spec_matches.
Qed.

(** C9, as stated, fails when the category given is the empty text: the
    pool is the product listing, not the products of that category. *)
Lemma search_ignores_empty_category :
  fst (search_products plain_repr "shirt" (Some "")
         (world_of catalog (empty_store true))) = Ok [shirt] /\
  calls (snd (search_products plain_repr "shirt" (Some "")
                (world_of catalog (empty_store true)))) = [url_products 100] /\
  fst (get_products_by_category plain_repr (VStr "")
         (world_of catalog (empty_store true))) = Ok (VList [lamp]) /\
  search_spec "shirt" (VList [lamp]) = [].
Proof. repeat split; reflexivity. Qed.

Lemma slice_to_nonneg {A} (n : Z) (l : list A) :
  (0 <= n)%Z -> slice_to n l = firstn (Z.to_nat n) l.
Proof.
  intros H. unfold slice_to. destruct (0 <=? n)%Z eqn:E; [reflexivity|].
  apply Z.leb_gt in E. lia.
Qed.

(** C10, as amended: for every product id and every limit that is not
    negative, [get_product_recommendations] returns the empty list when
    [get_product_by_id] yields no base product (or a falsy one, or one
    without a category), and then requests nothing but the product;
    otherwise it requests the products of the category of the base product
    and returns, in the order of that pool, the first [limit] records whose
    id differs from the product id. It never raises and leaves the session
    alone. *)
Theorem recommendations_are_the_others_of_the_category :
  forall (repr_of : value -> string) (product_id limit : Z) (w : World),
    (0 <= limit)%Z ->
    exists w',
      get_product_recommendations repr_of product_id limit w
        = (Ok match base_category (fetched_one (net w (url_product product_id))) with
              | Some category =>
                  recommend_spec product_id limit
                    (fetched (net w (url_category (format repr_of category))))
              | None => []
              end, w') /\
      calls w'
        = (calls w ++ url_product product_id ::
             match base_category (fetched_one (net w (url_product product_id))) with
             | Some category => [url_category (format repr_of category)]
             | None => []
             end)%list /\
      db w' = db w.
Proof.
  intros repr_of product_id limit w Hl.
  destruct (get_product_recommendations_run repr_of product_id limit w)
    as (w' & E & Hc & Hd & _).
  exists w'. split; [|split; assumption]. rewrite E. f_equal. f_equal.
  destruct (base_category _) as [category|]; [|reflexivity].
  unfold recommend_sliced, recommend_spec.
  destruct (iterate _) as [pool|]; [|reflexivity].
  destruct (forallb has_id pool); [|reflexivity].
  apply slice_to_nonneg, Hl.
Qed.

Lemma recommendations_are_the_others_of_the_category_witness :
  (exists w',
      get_product_recommendations plain_repr 5 2 (world_of catalog (empty_store true))
        = (Ok [phone; cable], w') /\
      calls w' = [url_product 5; url_category "electronics"]) /\
  (exists w',
      get_product_recommendations plain_repr 9 2 (world_of catalog (empty_store true))
        = (Ok [], w') /\
      calls w' = [url_product 9]).
Proof.
  split.
  - destruct (recommendations_are_the_others_of_the_category plain_repr 5 2
                (world_of catalog (empty_store true)))
      as (w' & E & Hc & _); [lia|].
    exists w'. split; [exact E|exact Hc].
  - destruct (recommendations_are_the_others_of_the_category plain_repr 9 2
                (world_of catalog (empty_store true)))
      as (w' & E & Hc & _); [lia|].
    exists w'. split; [exact E|exact Hc].
Defined.

(** C10, as stated, fails for a negative limit: the slice [[:-1]] drops
    the last record and keeps the others, here two records for limit -1. *)
Lemma negative_limit_keeps_all_but_the_last :
  fst (get_product_recommendations plain_repr 5 (-1)
         (world_of catalog (empty_store true))) = Ok [phone; cable] /\
  (Z.of_nat (List.length [phone; cable]) > -1)%Z.
Proof. split; [reflexivity|cbn; lia]. Qed.






(** C2, on the code: [search_and_sync] runs [sync_products_to_db 1] once
    for each of the first five results and ignores the result at hand, so
    what is persisted is the first product of the listing, not the products
    found. Searching "lamp" returns the lamp and stores the shirt. *)
Theorem search_and_sync_stores_the_head_of_the_listing :
  exists w',
    search_and_sync plain_repr "lamp" None (world_of catalog (empty_store true))
      = (Ok [lamp], w') /\
    calls w' = [url_products 100; url_products 1] /\
    map Producto.nombre (productos (db w')) = [VStr "Shirt"] /\
    map ProductoVariante.sku (variantes (db w')) = ["API-1"] /\
    has_producto (db w') "Lamp" = false.
Proof. eexists. repeat split; reflexivity. Qed.

(** * More properties of the code *)

(** ** [sync_categories_to_db] on any session with nothing pending *)

Lemma world_eta w : set_db w (db w) = w.
Proof. destruct w; reflexivity. Qed.

Lemma add_all_shape es : forall s,
  add_all es s
  = mkSession (autoflush s) (categorias s) (productos s) (variantes s)
      (pending s ++ es) (seq_categoria s) (seq_producto s) (seq_variante s).
Proof.
  induction es as [|e es IH]; intros s.
  - simpl. rewrite app_nil_r. destruct s; reflexivity.
  - change (add_all (e :: es) s) with (add_all es (add e s)).
    rewrite IH. unfold add; simpl. rewrite <- app_assoc. reflexivity.
Qed.

Lemma flush_add_all es s :
  flush (add_all es s) = fold_left insert_entity es (flush s).
Proof.
  rewrite add_all_shape. unfold flush; simpl. apply fold_left_app.
Qed.

Lemma sync_categoria_noflush n nombre w :
  autoflush (db w) = false ->
  sync_categoria n (VStr nombre) w
  = (Ok (n + (if lacks_categoria (db w) (title nombre) then 1 else 0))%Z,
     set_db w (if lacks_categoria (db w) (title nombre)
               then add (ECategoria (Categoria.new (title nombre))) (db w)
               else db w)).
Proof.
  intros Ha. unfold sync_categoria, bind, lift. cbn [str_title].
  unfold query_categoria_first, before_query. rewrite Ha.
  unfold lacks_categoria, has_categoria. rewrite existsb_find.
  cbn [db set_db].
  destruct (find _ (categorias (db w))); cbn [negb].
  - rewrite Z.add_0_r. reflexivity.
  - reflexivity.
Qed.

Lemma for_fold_sync_categoria_noflush nombres : forall n w,
  autoflush (db w) = false ->
  let created := filter (lacks_categoria (db w)) (map title nombres) in
  for_fold (map VStr nombres) n sync_categoria w
  = (Ok (n + Z.of_nat (List.length created))%Z,
     set_db w (add_all (map (fun t => ECategoria (Categoria.new t)) created) (db w))).
Proof.
  induction nombres as [|x xs IH]; intros n w Ha; cbv zeta.
  - simpl. rewrite Z.add_0_r, world_eta. reflexivity.
  - cbn [map for_fold]. unfold bind at 1.
    rewrite (sync_categoria_noflush n x w Ha). cbn [filter].
    destruct (lacks_categoria (db w) (title x)) eqn:E.
    + rewrite IH by exact Ha. cbv zeta. cbn [db set_db].
      replace (filter (lacks_categoria (add _ (db w))) (map title xs))
        with (filter (lacks_categoria (db w)) (map title xs)) by reflexivity.
      cbn [List.length map]. f_equal. f_equal. lia.
    + rewrite world_eta, IH by exact Ha. cbv zeta. f_equal. f_equal. lia.
Qed.

Lemma mirror_categorias_inserts nombres : forall S,
  mirror_categorias S nombres
  = insert_categorias (news (fun n => n) (has_categoria S) (map title nombres)) S.
Proof.
  induction nombres as [|n ns IH]; intros S; [reflexivity|].
  change (mirror_categorias S (n :: ns))
    with (mirror_categorias (mirror_categoria S n) ns).
  rewrite IH. cbn [map news].
  rewrite (news_ext _ _ _ _ (has_categoria_mirror S n)).
  destruct (has_categoria S (title n)) eqn:E.
  - rewrite (mirror_categoria_old _ _ E). f_equal. apply news_ext. intros k.
    destruct (String.eqb_spec k (title n)) as [->|N]; [rewrite E|]; reflexivity.
  - rewrite (mirror_categoria_new _ _ E). reflexivity.
Qed.

(** A run of [sync_categories_to_db], autoflush or not *)
Lemma sync_categories_to_db_run w w0 nombres :
  get_categories w = (Ok (VList (map VStr nombres)), w0) ->
  pending (db w) = [] ->
  let created := categorias_created (db w) nombres in
  let count := Z.of_nat (List.length created) in
  sync_categories_to_db w
  = (Ok count,
     logged (mkLog INFO ("Sincronizadas " ++ str_of_int count ++ " nuevas categorías") None)
            (set_db w0 (insert_categorias created (db w)))).
Proof.
  intros Hg Hp. unfold categorias_created.
  destruct (autoflush (db w)) eqn:Ha; cbv zeta.
  - pose proof (sync_categories_to_db_names w w0 nombres Hg Ha) as E.
    cbv zeta in E. rewrite (flush_clean _ Hp) in E.
    rewrite mirror_categorias_inserts in E. exact E.
  - destruct (get_categories_frame _ _ _ Hg) as [Hdb _].
    unfold sync_categories_to_db. unfold bind at 1. rewrite Hg.
    unfold bind at 1. cbn [lift iterate]. unfold bind at 1.
    rewrite <- Hdb in Ha.
    rewrite (for_fold_sync_categoria_noflush nombres 0%Z w0 Ha). cbv zeta.
    rewrite Hdb.
    unfold bind, db_commit, with_db, commit, logger_info. cbn [db set_db].
    rewrite flush_add_all, (flush_clean _ Hp). reflexivity.
Qed.

Lemma insert_categorias_spec ts : forall s,
  exists C,
    categorias (insert_categorias ts s) = (categorias s ++ C)%list /\
    map Categoria.nombre C = ts /\
    productos (insert_categorias ts s) = productos s /\
    variantes (insert_categorias ts s) = variantes s /\
    pending (insert_categorias ts s) = pending s /\
    autoflush (insert_categorias ts s) = autoflush s.
Proof.
  induction ts as [|t ts IH]; intros s.
  - exists []. simpl. rewrite app_nil_r. repeat split.
  - change (insert_categorias (t :: ts) s)
      with (insert_categorias ts (insert_entity s (ECategoria (Categoria.new t)))).
    destruct (IH (insert_entity s (ECategoria (Categoria.new t))))
      as (C & HC & HN & HP & HV & HQ & HA).
    cbn [insert_entity categorias productos variantes pending autoflush] in *.
    eexists (_ :: C). rewrite HC, <- app_assoc.
    repeat split; try assumption. simpl. rewrite HN. reflexivity.
Qed.

Lemma has_categoria_insert_categorias ts s k :
  has_categoria (insert_categorias ts s) k
  = existsb (String.eqb k) ts || has_categoria s k.
Proof.
  destruct (insert_categorias_spec ts s) as (C & HC & HN & _).
  unfold has_categoria. rewrite HC, existsb_app, <- HN, orb_comm. f_equal.
  clear. induction C as [|c C IH]; simpl; [reflexivity|].
  unfold categoria_named at 1. rewrite IH, String.eqb_sym. reflexivity.
Qed.

(** After a run each title-cased fetched name is in the store. *)
Lemma categorias_created_cover s nombres t :
  In t (map title nombres) ->
  has_categoria (insert_categorias (categorias_created s nombres) s) t = true.
Proof.
  intros H. rewrite has_categoria_insert_categorias.
  destruct (has_categoria s t) eqn:E; [apply orb_true_r|].
  rewrite orb_false_r. apply existsb_eqb_in. unfold categorias_created.
  destruct (autoflush s).
  - destruct (news_spec (fun n : string => n) (map title nombres) (has_categoria s))
      as [_ I].
    specialize (I t). rewrite !map_id in I. apply I. auto.
  - apply filter_In. split; [exact H|]. unfold lacks_categoria. rewrite E. reflexivity.
Qed.

Lemma categorias_created_none s nombres :
  (forall t, In t (map title nombres) -> has_categoria s t = true) ->
  categorias_created s nombres = [].
Proof.
  intros H. unfold categorias_created. destruct (autoflush s).
  - apply news_all_present. exact H.
  - induction (map title nombres) as [|t ts IH]; [reflexivity|]. simpl.
    unfold lacks_categoria at 1. rewrite (H t (or_introl eq_refl)). simpl.
    apply IH. intros u Hu. apply H. right. exact Hu.
Qed.

Lemma news_ext_in {A} (key : A -> string) (xs : list A) : forall p q,
  (forall x, In x xs -> p (key x) = q (key x)) -> news key p xs = news key q xs.
Proof.
  induction xs as [|x xs IH]; intros p q H; simpl; [reflexivity|].
  rewrite (H x (or_introl eq_refl)). destruct (q (key x)).
  - apply IH. intros y Hy. apply H. right. exact Hy.
  - f_equal. apply IH. intros y Hy. rewrite (H y (or_intror Hy)). reflexivity.
Qed.

(** On keys that are pairwise distinct, the new items are the items whose
    key is not present. *)
Lemma news_nodup {A} (key : A -> string) (xs : list A) : forall present,
  NoDup (map key xs) ->
  news key present xs = filter (fun x => negb (present (key x))) xs.
Proof.
  induction xs as [|x xs IH]; intros present ND; simpl; [reflexivity|].
  inversion ND as [|k ks Hk ND']; subst.
  destruct (present (key x)) eqn:E; simpl.
  - apply IH, ND'.
  - f_equal. rewrite <- (IH present ND'). apply news_ext_in.
    intros y Hy. destruct (String.eqb_spec (key y) (key x)) as [Heq|N]; [|reflexivity].
    exfalso. apply Hk. rewrite <- Heq. apply in_map, Hy.
Qed.

(** X1. On a session without autoflush and with nothing pending,
    [sync_categories_to_db] creates one Category for each occurrence of a
    fetched name whose title-cased form the store does not hold when the
    run starts, repeated names included, and returns that number; the rows
    of the store stay as they are. *)
Theorem sync_categories_without_autoflush_adds_each_occurrence :
  forall (w w0 : World) (nombres : list string),
    get_categories w = (Ok (VList (map VStr nombres)), w0) ->
    pending (db w) = [] ->
    autoflush (db w) = false ->
    let created := filter (lacks_categoria (db w)) (map title nombres) in
    exists w1 C,
      sync_categories_to_db w = (Ok (Z.of_nat (List.length created)), w1) /\
      categorias (db w1) = (categorias (db w) ++ C)%list /\
      map Categoria.nombre C = created /\
      productos (db w1) = productos (db w) /\
      variantes (db w1) = variantes (db w).
Proof.
  intros w w0 nombres Hg Hp Ha created.
  pose proof (sync_categories_to_db_run w w0 nombres Hg Hp) as E.
  unfold categorias_created in E. rewrite Ha in E. cbv zeta in E.
  destruct (insert_categorias_spec created (db w)) as (C & HC & HN & HP & HV & _).
  eexists _, C. split; [exact E|]. cbn [db logged set_db]. auto.
Qed.

Lemma sync_categories_without_autoflush_adds_each_occurrence_witness :
  exists w1,
    sync_categories_to_db (world_of catalog (empty_store false)) = (Ok 3%Z, w1) /\
    map Categoria.nombre (categorias (db w1))
      = ["Men'S Clothing"; "Men'S Clothing"; "Jewelery"].
Proof.
  destruct (sync_categories_without_autoflush_adds_each_occurrence
              (world_of catalog (empty_store false))
              (called url_categories (world_of catalog (empty_store false)))
              ["men's clothing"; "MEN'S CLOTHING"; "jewelery"]
              eq_refl eq_refl eq_refl)
    as (w1 & C & E & HC & HN & _).
  exists w1. split; [exact E|]. rewrite HC, map_app, HN. reflexivity.
Defined.

(** X2. When the title-cased forms of the fetched names are pairwise
    distinct, [sync_categories_to_db] creates one Category for each name
    the store does not hold and returns that number, whether the session
    autoflushes or not. *)
Theorem sync_categories_of_distinct_names :
  forall (w w0 : World) (nombres : list string),
    get_categories w = (Ok (VList (map VStr nombres)), w0) ->
    pending (db w) = [] ->
    NoDup (map title nombres) ->
    let created := filter (lacks_categoria (db w)) (map title nombres) in
    exists w1 C,
      sync_categories_to_db w = (Ok (Z.of_nat (List.length created)), w1) /\
      categorias (db w1) = (categorias (db w) ++ C)%list /\
      map Categoria.nombre C = created.
Proof.
  intros w w0 nombres Hg Hp ND created.
  pose proof (sync_categories_to_db_run w w0 nombres Hg Hp) as E. cbv zeta in E.
  assert (H : categorias_created (db w) nombres = created).
  { unfold categorias_created. destruct (autoflush (db w)); [|reflexivity].
    rewrite news_nodup by (rewrite map_id; exact ND). reflexivity. }
  rewrite H in E.
  destruct (insert_categorias_spec created (db w)) as (C & HC & HN & _).
  eexists _, C. split; [exact E|]. cbn [db logged set_db]. auto.
Qed.

Lemma sync_categories_of_distinct_names_witness :
  exists w1,
    sync_categories_to_db (world_of catalog_cached (empty_store true)) = (Ok 1%Z, w1) /\
    map Categoria.nombre (categorias (db w1)) = ["Hats"].
Proof.
  destruct (sync_categories_of_distinct_names
              (world_of catalog_cached (empty_store true))
              (called url_categories (world_of catalog_cached (empty_store true)))
              ["hats"] eq_refl eq_refl)
    as (w1 & C & E & HC & HN).
  - constructor; [intros []|constructor].
  - exists w1. split; [exact E|]. rewrite HC, map_app, HN. reflexivity.
Defined.

(** X3. Whether the session autoflushes or not, a second run of
    [sync_categories_to_db] over the same fetched names, right after the
    first, returns 0 and leaves the session as the first run left it. *)
Theorem sync_categories_twice_is_sync_once :
  forall (w w0 : World) (nombres : list string),
    get_categories w = (Ok (VList (map VStr nombres)), w0) ->
    pending (db w) = [] ->
    exists n w1,
      sync_categories_to_db w = (Ok n, w1) /\
      forall w2 w3,
        db w2 = db w1 ->
        get_categories w2 = (Ok (VList (map VStr nombres)), w3) ->
        exists w4, sync_categories_to_db w2 = (Ok 0%Z, w4) /\ db w4 = db w1.
Proof.
  intros w w0 nombres Hg Hp.
  pose proof (sync_categories_to_db_run w w0 nombres Hg Hp) as E. cbv zeta in E.
  eexists _, _. split; [exact E|]. cbn [db logged set_db].
  intros w2 w3 Hd Hg2.
  destruct (insert_categorias_spec (categorias_created (db w) nombres) (db w))
    as (C & _ & _ & _ & _ & HQ & _).
  assert (P2 : pending (db w2) = []) by (rewrite Hd, HQ; exact Hp).
  pose proof (sync_categories_to_db_run w2 w3 nombres Hg2 P2) as E2. cbv zeta in E2.
  rewrite categorias_created_none in E2.
  - eexists. split; [exact E2|]. cbn [db logged set_db]. exact Hd.
  - intros t Ht. rewrite Hd. apply categorias_created_cover, Ht.
Qed.

Lemma sync_categories_twice_is_sync_once_witness :
  exists w1,
    sync_categories_to_db (world_of catalog (empty_store false)) = (Ok 3%Z, w1) /\
    exists w4,
      sync_categories_to_db (world_of catalog (db w1)) = (Ok 0%Z, w4) /\
      db w4 = db w1.
Proof.
  destruct (sync_categories_twice_is_sync_once
              (world_of catalog (empty_store false))
              (called url_categories (world_of catalog (empty_store false)))
              ["men's clothing"; "MEN'S CLOTHING"; "jewelery"]
              eq_refl eq_refl)
    as (n & w1 & E & R).
  exists w1. split.
  - rewrite E. f_equal. f_equal.
    assert (F : fst (sync_categories_to_db (world_of catalog (empty_store false)))
                = Ok 3%Z) by reflexivity.
    rewrite E in F. injection F as F. exact F.
  - apply (R (world_of catalog (db w1))
             (called url_categories (world_of catalog (db w1)))); reflexivity.
Defined.

(** X4. [sync_categories_to_db] uses a fetched name only through its
    title-cased form, [cat_name.title()]: from the same store, two fetched
    lists whose names have, position by position, the same title-cased form
    give the same count and leave the same session. *)
Theorem sync_categories_sees_names_through_title :
  forall (wa wb wa0 wb0 : World) (na nb : list string),
    db wa = db wb ->
    pending (db wa) = [] ->
    get_categories wa = (Ok (VList (map VStr na)), wa0) ->
    get_categories wb = (Ok (VList (map VStr nb)), wb0) ->
    map title na = map title nb ->
    fst (sync_categories_to_db wa) = fst (sync_categories_to_db wb) /\
    db (snd (sync_categories_to_db wa)) = db (snd (sync_categories_to_db wb)).
Proof.
  intros wa wb wa0 wb0 na nb Hd Hp Ha Hb Hl.
  assert (Hp' : pending (db wb) = []) by (rewrite <- Hd; exact Hp).
  rewrite (sync_categories_to_db_run wa wa0 na Ha Hp).
  rewrite (sync_categories_to_db_run wb wb0 nb Hb Hp').
  cbn [fst snd db logged set_db].
  assert (H : categorias_created (db wa) na = categorias_created (db wb) nb).
  { unfold categorias_created. rewrite Hd, Hl. reflexivity. }
  rewrite H, Hd. split; reflexivity.
Qed.

Lemma sync_categories_sees_names_through_title_witness :
  fst (sync_categories_to_db (world_of catalog (empty_store true)))
    = fst (sync_categories_to_db (world_of catalog_shouting (empty_store true))) /\
  db (snd (sync_categories_to_db (world_of catalog (empty_store true))))
    = db (snd (sync_categories_to_db (world_of catalog_shouting (empty_store true)))).
Proof.
  apply (sync_categories_sees_names_through_title
           (world_of catalog (empty_store true))
           (world_of catalog_shouting (empty_store true))
           (called url_categories (world_of catalog (empty_store true)))
           (called url_categories (world_of catalog_shouting (empty_store true)))
           ["men's clothing"; "MEN'S CLOTHING"; "jewelery"]
           ["MEN'S CLOTHING"; "men's CLOTHING"; "JEWELERY"]);
    reflexivity.
Defined.

(** X18. On a session whose queries see the objects added before them
    (autoflush, the default of the ORM), for every list of category names
    the fetch layer returns and every store, [sync_categories_to_db]
    creates exactly one Category for each distinct title-cased name that
    the store does not hold, keeps the rows the store holds, and returns
    the number of rows created; run again over the same fetched list, it
    creates nothing and returns 0. The store is what the first query sees,
    [flush (db w)]. *)
Theorem sync_categories_creates_each_new_name_once :
  forall (w w0 : World) (nombres : list string),
    get_categories w = (Ok (VList (map VStr nombres)), w0) ->
    autoflush (db w) = true ->
    let store := flush (db w) in
    let created :=
      news (fun n => n) (has_categoria store) (map title nombres) in
    NoDup created /\
    (forall n, In n created <->
               In n (map title nombres) /\ has_categoria store n = false) /\
    exists w1 C,
      sync_categories_to_db w = (Ok (Z.of_nat (List.length created)), w1) /\
      categorias (db w1) = (categorias store ++ C)%list /\
      map Categoria.nombre C = created /\
      productos (db w1) = productos store /\
      variantes (db w1) = variantes store /\
      forall w2 w3,
        db w2 = db w1 ->
        get_categories w2 = (Ok (VList (map VStr nombres)), w3) ->
        exists w4,
          sync_categories_to_db w2 = (Ok 0%Z, w4) /\
          db w4 = db w1.
Proof.
  intros w w0 nombres Hg Ha store created. subst created store.
  destruct (news_spec (fun n : string => n) (map title nombres)
              (has_categoria (flush (db w))))
    as [ND I].
  rewrite map_id in ND. split; [exact ND|].
  split; [intros n; specialize (I n); rewrite !map_id in I; exact I|].
  pose proof (sync_categories_to_db_names w w0 nombres Hg Ha) as E. cbv zeta in E.
  destruct (mirror_categorias_spec nombres (flush (db w))) as (C & HC & HP & HV & HQ & HA & HN).
  eexists _, C. split; [exact E|]. cbn [db logged set_db].
  split; [exact HC|]. split; [exact HN|]. split; [exact HP|]. split; [exact HV|].
  intros w2 w3 Hd Hg2. cbn [db logged set_db] in Hd.
  assert (P : pending (db w2) = []).
  { rewrite Hd, HQ. apply pending_flush. }
  assert (A : autoflush (db w2) = true).
  { rewrite Hd, HA, autoflush_flush. exact Ha. }
  pose proof (sync_categories_to_db_names w2 w3 nombres Hg2 A) as E2.
  cbv zeta in E2. rewrite (flush_clean _ P) in E2.
  assert (H : forall n, In n nombres -> has_categoria (db w2) (title n) = true).
  { intros n Hn. rewrite Hd, mirror_categorias_has.
    rewrite (existsb_eqb_in _ _ (in_map title _ _ Hn)). reflexivity. }
  rewrite (mirror_categorias_present _ _ H) in E2.
  rewrite news_all_present in E2.
  - eexists. split; [exact E2|]. cbn [db logged set_db]. exact Hd.
  - intros x Hx. apply in_map_iff in Hx as (n & <- & Hn). apply H, Hn.
Qed.

Lemma sync_categories_creates_each_new_name_once_witness :
  exists w1,
    sync_categories_to_db (world_of catalog (empty_store true)) = (Ok 2%Z, w1) /\
    map Categoria.nombre (categorias (db w1)) = ["Men'S Clothing"; "Jewelery"] /\
    exists w4,
      sync_categories_to_db (world_of catalog (db w1)) = (Ok 0%Z, w4) /\
      db w4 = db w1.
Proof.
  destruct (sync_categories_creates_each_new_name_once
              (world_of catalog (empty_store true))
              (called url_categories (world_of catalog (empty_store true)))
              ["men's clothing"; "MEN'S CLOTHING"; "jewelery"]
              eq_refl eq_refl)
    as (_ & _ & w1 & C & E & HC & HN & _ & _ & R).
  exists w1. split; [exact E|]. split.
  - rewrite HC, map_app, HN. reflexivity.
  - apply (R (world_of catalog (db w1))
             (called url_categories (world_of catalog (db w1)))); reflexivity.
Defined.

(** ** The categories [sync_products_to_db] creates *)

Lemma categoria_for_old S r :
  has_categoria S (category_title r) = true -> fst (categoria_for S r) = S.
Proof.
  unfold has_categoria, categoria_for, category_title. rewrite existsb_find.
  destruct (find _ (categorias S)); [reflexivity|discriminate].
Qed.

Lemma categoria_for_new S r :
  has_categoria S (category_title r) = false ->
  fst (categoria_for S r)
  = insert_entity S (ECategoria (Categoria.new (category_title r))).
Proof.
  unfold has_categoria, categoria_for, category_title. rewrite existsb_find.
  destruct (find _ (categorias S)); [discriminate|reflexivity].
Qed.

Lemma categorias_producto_for S c r :
  categorias (fst (producto_for S c r)) = categorias S.
Proof.
  destruct (has_producto S (ApiProduct.title r)) eqn:E.
  - rewrite (producto_for_old _ _ _ E). reflexivity.
  - rewrite (producto_for_new _ _ _ E). reflexivity.
Qed.

Lemma categorias_mirror_producto S r :
  categorias (fst (mirror_producto S r)) = categorias (fst (categoria_for S r)).
Proof.
  unfold mirror_producto. destruct (categoria_for S r) as [S1 c]. cbn [fst].
  apply categorias_producto_for.
Qed.

Lemma has_categoria_same S S' :
  categorias S' = categorias S -> forall k, has_categoria S' k = has_categoria S k.
Proof. unfold has_categoria. intros -> k. reflexivity. Qed.

Lemma mirror_producto_has_categoria S r k :
  has_categoria (fst (mirror_producto S r)) k
  = String.eqb k (category_title r) || has_categoria S k.
Proof.
  rewrite (has_categoria_same _ _ (categorias_mirror_producto S r)).
  destruct (has_categoria S (category_title r)) eqn:E.
  - rewrite (categoria_for_old _ _ E).
    destruct (String.eqb_spec k (category_title r)) as [->|N]; [rewrite E|]; reflexivity.
  - rewrite (categoria_for_new _ _ E). unfold has_categoria.
    cbn [insert_entity categorias]. rewrite existsb_app.
    cbn [existsb categoria_named Categoria.nombre Categoria.new].
    rewrite orb_false_r, orb_comm, String.eqb_sym. reflexivity.
Qed.

Lemma mirror_productos_has_categoria rs : forall S k,
  has_categoria (mirror_productos S rs) k
  = existsb (String.eqb k) (map category_title rs) || has_categoria S k.
Proof.
  induction rs as [|r rs IH]; intros S k; [reflexivity|].
  rewrite mirror_productos_cons, IH, mirror_producto_has_categoria. simpl.
  destruct (String.eqb k (category_title r)); simpl;
    [apply orb_true_r|reflexivity].
Qed.

Lemma mirror_productos_categorias rs : forall S,
  exists C,
    categorias (mirror_productos S rs) = (categorias S ++ C)%list /\
    map Categoria.nombre C
      = news (fun n => n) (has_categoria S) (map category_title rs).
Proof.
  induction rs as [|r rs IH]; intros S.
  - exists []. simpl. rewrite app_nil_r. auto.
  - rewrite mirror_productos_cons. cbn [map news].
    destruct (IH (fst (mirror_producto S r))) as (C & HC & HN).
    rewrite (news_ext _ _ _ _ (mirror_producto_has_categoria S r)) in HN.
    rewrite HC, categorias_mirror_producto.
    destruct (has_categoria S (category_title r)) eqn:E.
    + rewrite (categoria_for_old _ _ E). exists C. split; [reflexivity|].
      rewrite HN. apply news_ext. intros k.
      destruct (String.eqb_spec k (category_title r)) as [->|N];
        [rewrite E|]; reflexivity.
    + rewrite (categoria_for_new _ _ E). cbn [insert_entity categorias].
      eexists (_ :: C). rewrite <- app_assoc. split; [reflexivity|].
      simpl. rewrite HN. reflexivity.
Qed.

Lemma mirror_producto_fixed S r :
  has_producto S (ApiProduct.title r) = true ->
  has_categoria S (category_title r) = true ->
  fst (mirror_producto S r) = S.
Proof.
  intros HP HC. unfold mirror_producto.
  pose proof (categoria_for_old _ _ HC) as E.
  destruct (categoria_for S r) as [S1 c]. cbn [fst] in E. subst S1.
  rewrite (producto_for_old _ _ _ HP). reflexivity.
Qed.

Lemma mirror_productos_fixed rs : forall S,
  (forall r, In r rs ->
             has_producto S (ApiProduct.title r) = true /\
             has_categoria S (category_title r) = true) ->
  mirror_productos S rs = S.
Proof.
  induction rs as [|r rs IH]; intros S H; [reflexivity|].
  rewrite mirror_productos_cons.
  destruct (H r (or_introl eq_refl)) as [HP HC].
  rewrite (mirror_producto_fixed _ _ HP HC). apply IH.
  intros x Hx. apply H. right. exact Hx.
Qed.

Lemma mirror_productos_pending rs S :
  pending (mirror_productos S rs) = pending S.
Proof.
  destruct (mirror_productos_spec rs S) as (_ & _ & _ & _ & _ & _ & H & _). exact H.
Qed.

(** A run of [sync_products_to_db] on well-formed records, from a session
    with nothing pending *)
Lemma sync_products_to_db_run repr_of limit w w0 vs rs :
  get_products limit w = (Ok (VList vs), w0) ->
  as_products vs = Some rs ->
  pending (db w) = [] ->
  exists w1,
    sync_products_to_db repr_of limit w
      = (Ok (Z.of_nat (List.length
                         (news ApiProduct.title (has_producto (db w)) rs))), w1) /\
    db w1 = mirror_productos (db w) rs /\
    pending (db w1) = [] /\
    net w1 = net w /\
    calls w1 = (calls w ++ [url_products limit])%list.
Proof.
  intros Hg Hv Hp.
  pose proof (sync_products_to_db_typed repr_of limit w w0 vs rs Hg Hv
                (steady_clean _ Hp)) as E.
  rewrite (flush_clean _ Hp) in E. cbv zeta in E.
  eexists. split; [exact E|]. cbn [db net calls logged set_db].
  split; [reflexivity|]. split; [rewrite mirror_productos_pending; exact Hp|].
  revert Hg. rewrite get_products_run.
  destruct (failure_of _); intros H; injection H as _ <-; auto.
Qed.

(** X5. [sync_products_to_db] creates one Category for each distinct
    title-cased category name of the fetched records that the store does
    not hold, in the order of the records, also for a record whose product
    the store holds already; the categories of the store stay as they are. *)
Theorem sync_products_creates_the_missing_categories :
  forall (repr_of : value -> string) (limit : Z) (w w0 : World)
         (vs : list value) (rs : list ApiProduct.t),
    get_products limit w = (Ok (VList vs), w0) ->
    as_products vs = Some rs ->
    pending (db w) = [] ->
    let created := news (fun n => n) (has_categoria (db w)) (map category_title rs) in
    NoDup created /\
    (forall n, In n created <->
               In n (map category_title rs) /\ has_categoria (db w) n = false) /\
    exists n w1 C,
      sync_products_to_db repr_of limit w = (Ok n, w1) /\
      categorias (db w1) = (categorias (db w) ++ C)%list /\
      map Categoria.nombre C = created.
Proof.
  intros repr_of limit w w0 vs rs Hg Hv Hp created. subst created.
  destruct (news_spec (fun n : string => n) (map category_title rs)
              (has_categoria (db w))) as [ND I].
  rewrite map_id in ND. split; [exact ND|].
  split; [intros n; specialize (I n); rewrite !map_id in I; exact I|].
  destruct (sync_products_to_db_run repr_of limit w w0 vs rs Hg Hv Hp)
    as (w1 & E & Hd & _).
  destruct (mirror_productos_categorias rs (db w)) as (C & HC & HN).
  eexists _, w1, C. split; [exact E|]. rewrite Hd. auto.
Qed.

Lemma sync_products_creates_the_missing_categories_witness :
  exists w1,
    sync_products_to_db plain_repr 1 (world_of catalog store_of_one_shirt)
      = (Ok 0%Z, w1) /\
    map Categoria.nombre (categorias (db w1)) = ["Men'S Clothing"].
Proof.
  destruct (sync_products_creates_the_missing_categories plain_repr 1
              (world_of catalog store_of_one_shirt)
              (called (url_products 1) (world_of catalog store_of_one_shirt))
              [shirt]
              [ApiProduct.mk 1 "Shirt" "men's clothing" price_9_99 (VStr "u1")]
              eq_refl eq_refl eq_refl)
    as (_ & _ & n & w1 & C & E & HC & HN).
  exists w1. split.
  - rewrite E. f_equal. f_equal.
    assert (F : fst (sync_products_to_db plain_repr 1
                       (world_of catalog store_of_one_shirt)) = Ok 0%Z)
      by reflexivity.
    rewrite E in F. injection F as F. exact F.
  - rewrite HC, map_app, HN. reflexivity.
Defined.

(** X6. A second run of [sync_products_to_db], right after the first, on
    records with the same titles and the same categories (whatever their
    ids, prices and images) returns 0 and leaves the session exactly as the
    first run left it: no row and no generated id is consumed. *)
Theorem sync_products_twice_is_sync_once :
  forall (repr_of : value -> string) (limit : Z) (w w0 : World)
         (vs : list value) (rs : list ApiProduct.t),
    get_products limit w = (Ok (VList vs), w0) ->
    as_products vs = Some rs ->
    pending (db w) = [] ->
    exists n w1,
      sync_products_to_db repr_of limit w = (Ok n, w1) /\
      forall repr_of' limit' w2 w3 vs' rs',
        db w2 = db w1 ->
        get_products limit' w2 = (Ok (VList vs'), w3) ->
        as_products vs' = Some rs' ->
        map ApiProduct.title rs' = map ApiProduct.title rs ->
        map ApiProduct.category rs' = map ApiProduct.category rs ->
        exists w4,
          sync_products_to_db repr_of' limit' w2 = (Ok 0%Z, w4) /\
          db w4 = db w1.
Proof.
  intros repr_of limit w w0 vs rs Hg Hv Hp.
  destruct (sync_products_to_db_run repr_of limit w w0 vs rs Hg Hv Hp)
    as (w1 & E & Hd & Hq & _).
  eexists _, w1. split; [exact E|].
  intros repr_of' limit' w2 w3 vs' rs' Hd2 Hg' Hv' Ht Hc.
  assert (P2 : pending (db w2) = []) by (rewrite Hd2; exact Hq).
  destruct (sync_products_to_db_run repr_of' limit' w2 w3 vs' rs' Hg' Hv' P2)
    as (w4 & E' & Hd' & _).
  assert (Hall : forall r, In r rs' ->
                   has_producto (db w2) (ApiProduct.title r) = true /\
                   has_categoria (db w2) (category_title r) = true).
  { intros r Hr. rewrite Hd2, Hd, mirror_productos_has, mirror_productos_has_categoria.
    split.
    - rewrite <- Ht, (existsb_eqb_in _ _ (in_map ApiProduct.title _ _ Hr)). reflexivity.
    - assert (M : map category_title rs' = map category_title rs).
      { unfold category_title. rewrite <- !(map_map ApiProduct.category title), Hc.
        reflexivity. }
      rewrite <- M, (existsb_eqb_in _ _ (in_map category_title _ _ Hr)). reflexivity. }
  exists w4. split.
  - rewrite E'. rewrite news_all_present; [reflexivity|]. intros r Hr. apply Hall, Hr.
  - rewrite Hd', (mirror_productos_fixed _ _ Hall). exact Hd2.
Qed.

Lemma sync_products_twice_is_sync_once_witness :
  exists n w1 w4,
    sync_products_to_db plain_repr 50 (world_of catalog (empty_store false))
      = (Ok n, w1) /\
    sync_products_to_db plain_repr 50 (world_of catalog_repriced (db w1))
      = (Ok 0%Z, w4) /\
    db w4 = db w1.
Proof.
  destruct (sync_products_twice_is_sync_once plain_repr 50
              (world_of catalog (empty_store false))
              (called (url_products 50) (world_of catalog (empty_store false)))
              [shirt; lamp; shirt]
              [ApiProduct.mk 1 "Shirt" "men's clothing" price_9_99 (VStr "u1");
               ApiProduct.mk 2 "Lamp" "home" (VInt 30) (VStr "u2");
               ApiProduct.mk 1 "Shirt" "men's clothing" price_9_99 (VStr "u1")]
              eq_refl eq_refl eq_refl)
    as (n & w1 & E & R).
  destruct (R plain_repr 50%Z (world_of catalog_repriced (db w1))
              (called (url_products 50) (world_of catalog_repriced (db w1)))
              [record 1 "Shirt" "men's clothing" (VInt 11) "u1-new"; lamp; shirt]
              [ApiProduct.mk 1 "Shirt" "men's clothing" (VInt 11) (VStr "u1-new");
               ApiProduct.mk 2 "Lamp" "home" (VInt 30) (VStr "u2");
               ApiProduct.mk 1 "Shirt" "men's clothing" price_9_99 (VStr "u1")]
              eq_refl eq_refl eq_refl eq_refl eq_refl)
    as (w4 & E4 & D4).
  exists n, w1, w4. auto.
Defined.

(** ** How the client operations compose *)

Lemma get_categories_fetched_frame w :
  exists w0,
    get_categories w = (Ok (fetched (net w url_categories)), w0) /\
    calls w0 = (calls w ++ [url_categories])%list /\
    db w0 = db w /\ net w0 = net w.
Proof.
  rewrite get_categories_run. unfold fetched.
  destruct (failure_of _); eexists; repeat split.
Qed.

Lemma get_products_fetched_frame limit w :
  exists w0,
    get_products limit w = (Ok (fetched (net w (url_products limit))), w0) /\
    calls w0 = (calls w ++ [url_products limit])%list /\
    db w0 = db w /\ net w0 = net w.
Proof.
  rewrite get_products_run. unfold fetched.
  destruct (failure_of _); eexists; repeat split.
Qed.

(** X7. [sync_all_data] requests the categories, then the products; its
    report holds the number of categories and the number of products
    created; and when the category of every fetched record is among the
    fetched category names, letter case apart, the product phase creates no
    category: the categories created are those of the category phase. *)
Theorem sync_all_data_syncs_categories_then_products :
  forall (repr_of : value -> string) (limit : Z) (w : World)
         (nombres : list string) (vs : list value) (rs : list ApiProduct.t),
    pending (db w) = [] ->
    fetched (net w url_categories) = VList (map VStr nombres) ->
    fetched (net w (url_products limit)) = VList vs ->
    as_products vs = Some rs ->
    exists report w',
      sync_all_data repr_of limit w = (Ok report, w') /\
      categories_synced report
        = Z.of_nat (List.length (categorias_created (db w) nombres)) /\
      products_synced report
        = Z.of_nat (List.length (news ApiProduct.title (has_producto (db w)) rs)) /\
      calls w' = (calls w ++ [url_categories; url_products limit])%list /\
      ((forall r, In r rs -> In (category_title r) (map title nombres)) ->
       exists C,
         categorias (db w') = (categorias (db w) ++ C)%list /\
         map Categoria.nombre C = categorias_created (db w) nombres).
Proof.
  intros repr_of limit w nombres vs rs Hp Hc Hf Hv.
  unfold sync_all_data, bind at 1, logger_info.
  set (w1 := logged _ w).
  destruct (get_categories_fetched_frame w1) as (w0 & Hg & Hcalls0 & Hdb0 & Hnet0).
  change (net w1) with (net w) in Hg. rewrite Hc in Hg.
  pose proof (sync_categories_to_db_run w1 w0 nombres Hg Hp) as E1. cbv zeta in E1.
  unfold bind at 1. rewrite E1.
  set (created := categorias_created (db w1) nombres) in *.
  set (w2 := logged _ (set_db w0 (insert_categorias created (db w1)))).
  destruct (insert_categorias_spec created (db w1))
    as (C & HC & HN & HP & _ & HQ & _).
  assert (P2 : pending (db w2) = []) by (cbn [w2 db logged set_db]; rewrite HQ; exact Hp).
  destruct (get_products_fetched_frame limit w2) as (w3 & Hg2 & _).
  replace (net w2) with (net w) in Hg2 by (symmetry; exact Hnet0).
  rewrite Hf in Hg2.
  destruct (sync_products_to_db_run repr_of limit w2 w3 vs rs Hg2 Hv P2)
    as (w4 & E2 & Hd4 & _ & _ & Hcalls4).
  unfold bind. rewrite E2. cbn [ret].
  eexists _, w4. split; [reflexivity|]. cbn [categories_synced products_synced].
  split; [reflexivity|]. split; [|split].
  - f_equal. f_equal. apply news_ext. intros k.
    apply has_producto_same. exact HP.
  - rewrite Hcalls4. cbn [w2 calls logged set_db]. rewrite Hcalls0.
    cbn [w1 calls logged]. rewrite <- app_assoc. reflexivity.
  - intros Hall. exists C. split; [|exact HN].
    destruct (mirror_productos_categorias rs (db w2)) as (C' & HC' & HN').
    rewrite news_all_present in HN'.
    + destruct C'; [|discriminate]. rewrite Hd4, HC', app_nil_r. exact HC.
    + intros t Ht. apply in_map_iff in Ht as (r & <- & Hr).
      cbn [w2 db logged set_db]. apply categorias_created_cover, Hall, Hr.
Qed.

Lemma sync_all_data_syncs_categories_then_products_witness :
  exists report w',
    sync_all_data plain_repr 1 (world_of catalog (empty_store true))
      = (Ok report, w') /\
    categories_synced report = 2%Z /\
    products_synced report = 1%Z /\
    calls w' = [url_categories; url_products 1] /\
    map Categoria.nombre (categorias (db w')) = ["Men'S Clothing"; "Jewelery"].
Proof.
  destruct (sync_all_data_syncs_categories_then_products plain_repr 1
              (world_of catalog (empty_store true))
              ["men's clothing"; "MEN'S CLOTHING"; "jewelery"]
              [shirt]
              [ApiProduct.mk 1 "Shirt" "men's clothing" price_9_99 (VStr "u1")]
              eq_refl eq_refl eq_refl eq_refl)
    as (report & w' & E & H1 & H2 & H3 & H4).
  exists report, w'. split; [exact E|]. split; [exact H1|]. split; [exact H2|].
  split; [exact H3|].
  destruct H4 as (C & HC & HN).
  - intros r [<-|[]]. left. reflexivity.
  - rewrite HC, map_app, HN. reflexivity.
Defined.

Lemma mirror_productos_twice rs S :
  mirror_productos (mirror_productos S rs) rs = mirror_productos S rs.
Proof.
  apply mirror_productos_fixed. intros r Hr.
  rewrite mirror_productos_has, mirror_productos_has_categoria.
  rewrite (existsb_eqb_in _ _ (in_map ApiProduct.title _ _ Hr)).
  rewrite (existsb_eqb_in _ _ (in_map category_title _ _ Hr)). auto.
Qed.

Lemma for_fold_sync_listing repr_of vs rs (xs : list value) : forall w,
  pending (db w) = [] ->
  fetched (net w (url_products 1)) = VList vs ->
  as_products vs = Some rs ->
  exists w',
    for_fold xs tt (fun (_ : unit) (product : value) =>
                      sync_products_to_db repr_of 1 ;; ret tt) w = (Ok tt, w') /\
    db w' = match xs with [] => db w | _ :: _ => mirror_productos (db w) rs end /\
    calls w' = (calls w ++ repeat (url_products 1) (List.length xs))%list /\
    net w' = net w.
Proof.
  induction xs as [|x xs IH]; intros w Hp Hf Hv.
  - exists w. simpl. rewrite app_nil_r. auto.
  - destruct (get_products_fetched_frame 1 w) as (w0 & Hg & _). rewrite Hf in Hg.
    destruct (sync_products_to_db_run repr_of 1 w w0 vs rs Hg Hv Hp)
      as (w1 & E & Hd & Hq & Hn & Hc).
    cbn [for_fold]. unfold bind at 1 2. rewrite E. cbn [ret].
    destruct (IH w1 Hq) as (w' & E' & Hd' & Hc' & Hn'); [rewrite Hn; exact Hf|exact Hv|].
    exists w'. split; [exact E'|]. split; [|split].
    + rewrite Hd'. destruct xs; [exact Hd|].
      rewrite Hd. apply mirror_productos_twice.
    + rewrite Hc', Hc, <- app_assoc. reflexivity.
    + congruence.
Qed.

(** X8. [search_and_sync] returns the search result; it requests the
    one-product listing once for each of the first five results; and,
    however many results there are, it leaves the store as a single
    [sync_products_to_db 1] leaves it, or untouched when nothing was found:
    the result at hand is not what is stored. *)
Theorem search_and_sync_syncs_the_listing_head :
  forall (repr_of : value -> string) (query : string) (category : option string)
         (w : World) (vs : list value) (rs : list ApiProduct.t),
    pending (db w) = [] ->
    fetched (net w (url_products 1)) = VList vs ->
    as_products vs = Some rs ->
    let results := search_spec query (fetched (net w (search_url category))) in
    exists w',
      search_and_sync repr_of query category w = (Ok results, w') /\
      calls w' = (calls w ++ search_url category ::
                    repeat (url_products 1) (Nat.min 5 (List.length results)))%list /\
      db w' = match results with
              | [] => db w
              | _ :: _ => db (snd (sync_products_to_db repr_of 1 w))
              end.
Proof.
  intros repr_of query category w vs rs Hp Hf Hv results.
  unfold search_and_sync, bind at 1.
  destruct (search_products_run repr_of query category w) as (w1 & E & Hc & Hd & Hn).
  rewrite E. fold results. cbv beta iota.
  destruct (for_fold_sync_listing repr_of vs rs (slice_to 5 results) w1)
    as (w' & E' & Hd' & Hc' & _);
    [rewrite Hd; exact Hp|rewrite Hn; exact Hf|exact Hv|].
  unfold bind at 1. rewrite E'. cbn [ret].
  exists w'. split; [reflexivity|]. split.
  - rewrite Hc', Hc, <- app_assoc. simpl. do 3 f_equal.
    change (slice_to 5 results) with (firstn 5 results). apply length_firstn.
  - rewrite Hd', Hd.
    change (slice_to 5 results) with (firstn 5 results).
    destruct results as [|r l]; [reflexivity|]. cbn [firstn].
    destruct (get_products_fetched_frame 1 w) as (w0 & Hg & _). rewrite Hf in Hg.
    destruct (sync_products_to_db_run repr_of 1 w w0 vs rs Hg Hv Hp)
      as (w2 & E2 & Hd2 & _).
    rewrite E2. cbn [snd]. symmetry. exact Hd2.
Qed.

Lemma search_and_sync_syncs_the_listing_head_witness :
  exists w',
    search_and_sync plain_repr "" None (world_of catalog (empty_store true))
      = (Ok [shirt; lamp], w') /\
    calls w' = [url_products 100; url_products 1; url_products 1] /\
    map Producto.nombre (productos (db w')) = [VStr "Shirt"].
Proof.
  destruct (search_and_sync_syncs_the_listing_head plain_repr "" None
              (world_of catalog (empty_store true))
              [shirt]
              [ApiProduct.mk 1 "Shirt" "men's clothing" price_9_99 (VStr "u1")]
              eq_refl eq_refl eq_refl)
    as (w' & E & Hc & Hd).
  exists w'. split; [exact E|]. split; [exact Hc|].
  cbv zeta in Hd. rewrite Hd. reflexivity.
Defined.

(** ** The store only grows *)

Lemma extends_refl s : extends s s.
Proof. repeat split; exists []; symmetry; apply app_nil_r. Qed.

Lemma extends_trans s1 s2 s3 : extends s1 s2 -> extends s2 s3 -> extends s1 s3.
Proof.
  intros ((C & HC) & (P & HP) & (V & HV)) ((C' & HC') & (P' & HP') & (V' & HV')).
  repeat split; eexists.
  - rewrite HC', HC, <- app_assoc. reflexivity.
  - rewrite HP', HP, <- app_assoc. reflexivity.
  - rewrite HV', HV, <- app_assoc. reflexivity.
Qed.

Lemma extends_insert_entity s e : extends s (insert_entity s e).
Proof.
  destruct e; cbn [insert_entity]; repeat split; cbn;
    first [eexists; reflexivity | exists []; symmetry; apply app_nil_r].
Qed.

Lemma extends_fold_insert l : forall s, extends s (fold_left insert_entity l s).
Proof.
  induction l as [|e l IH]; intros s; simpl; [apply extends_refl|].
  eapply extends_trans; [apply extends_insert_entity|apply IH].
Qed.

Lemma extends_flush s : extends s (flush s).
Proof.
  unfold flush. eapply extends_trans; [|apply extends_fold_insert].
  repeat split; exists []; symmetry; apply app_nil_r.
Qed.

Lemma extends_add e s : extends s (add e s).
Proof. repeat split; exists []; symmetry; apply app_nil_r. Qed.

Lemma extends_before_query s : extends s (before_query s).
Proof.
  unfold before_query. destruct (autoflush s); [apply extends_flush|apply extends_refl].
Qed.

Lemma only_adds_bind {A B} (m : Py A) (k : A -> Py B) :
  only_adds m -> (forall a, only_adds (k a)) -> only_adds (bind m k).
Proof.
  intros Hm Hk w r w'. unfold bind.
  destruct (m w) as [[a|e] w1] eqn:E; intros H.
  - eapply extends_trans; [eapply Hm, E|eapply Hk, H].
  - injection H as <- <-. eapply Hm, E.
Qed.

Lemma only_adds_try {A} (m : Py A) (catches : exn -> bool) (h : exn -> Py A) :
  only_adds m -> (forall e, only_adds (h e)) -> only_adds (try_except m catches h).
Proof.
  intros Hm Hh w r w'. unfold try_except.
  destruct (m w) as [[a|e] w1] eqn:E; intros H.
  - injection H as <- <-. eapply Hm, E.
  - destruct (catches e).
    + eapply extends_trans; [eapply Hm, E|eapply Hh, H].
    + injection H as <- <-. eapply Hm, E.
Qed.

Lemma only_adds_for_fold {A S} (body : S -> A -> Py S) (xs : list A) :
  (forall acc x, only_adds (body acc x)) ->
  forall acc, only_adds (for_fold xs acc body).
Proof.
  intros Hb. induction xs as [|x xs IH]; intros acc; simpl.
  - intros w r w' H. injection H as <- <-. apply extends_refl.
  - apply only_adds_bind; [apply Hb|]. intros a. apply IH.
Qed.

Lemma only_adds_same {A} (f : World -> result A * World) :
  (forall w, db (snd (f w)) = db w) -> only_adds f.
Proof.
  intros H w r w' E. specialize (H w). rewrite E in H. cbn in H.
  rewrite H. apply extends_refl.
Qed.

Lemma only_adds_with_db (f : Session -> Session) :
  (forall s, extends s (f s)) -> only_adds (with_db f).
Proof. intros H w r w' E. injection E as <- <-. apply H. Qed.

Lemma only_adds_query_categoria nombre : only_adds (query_categoria_first nombre).
Proof. intros w r w' E. injection E as <- <-. apply extends_before_query. Qed.

Lemma only_adds_query_producto nombre : only_adds (query_producto_first nombre).
Proof. intros w r w' E. injection E as <- <-. apply extends_before_query. Qed.

Lemma only_adds_requests_get url : only_adds (requests_get url).
Proof.
  apply only_adds_same. intros w. unfold requests_get.
  destruct (net w url); reflexivity.
Qed.

Lemma only_adds_raise_for_status r : only_adds (raise_for_status r).
Proof.
  unfold raise_for_status.
  destruct (_ && _); apply only_adds_same; intros w; reflexivity.
Qed.

Ltac only_adds_tac :=
  repeat first
    [ apply only_adds_requests_get
    | apply only_adds_raise_for_status
    | apply only_adds_query_categoria
    | apply only_adds_query_producto
    | apply only_adds_with_db; intros ?;
        first [apply extends_flush | apply extends_add]
    | apply only_adds_bind; [|intros ?]
    | apply only_adds_try; [|intros ?]
    | apply only_adds_for_fold; intros ? ?
    | apply only_adds_same; intros ?; reflexivity
    | match goal with
      | |- only_adds (match ?x with _ => _ end) => destruct x
      | |- only_adds (if ?x then _ else _) => destruct x
      end ].

Lemma only_adds_sync_categories_to_db : only_adds sync_categories_to_db.
Proof.
  unfold sync_categories_to_db, get_categories, sync_categoria, db_commit, db_add,
    commit.
  only_adds_tac.
Qed.

Lemma only_adds_get_products limit : only_adds (get_products limit).
Proof. unfold get_products. only_adds_tac. Qed.

Lemma only_adds_sync_products_to_db repr_of limit :
  only_adds (sync_products_to_db repr_of limit).
Proof.
  unfold sync_products_to_db, sync_producto, find_or_create_categoria,
    create_producto, db_commit, db_add, db_flush, commit.
  apply only_adds_bind; [apply only_adds_get_products|intros ?].
  only_adds_tac.
Qed.

Lemma only_adds_search_products repr_of query category :
  only_adds (search_products repr_of query category).
Proof.
  intros w r w' E.
  destruct (search_products_run repr_of query category w) as (w1 & E1 & _ & Hd & _).
  rewrite E1 in E. injection E as _ <-. rewrite Hd. apply extends_refl.
Qed.

(** X9. Whatever the API answers and however a run ends, with a count
    or with an exception, the sync operations only append rows: the
    categories, products and variants that the store held before are, in
    their order and unchanged, the head of the tables after. *)
Theorem sync_only_appends_rows :
  forall (repr_of : value -> string) (limit : Z) (query : string)
         (category : option string) (w : World),
    (forall r w', sync_categories_to_db w = (r, w') -> extends (db w) (db w')) /\
    (forall r w', sync_products_to_db repr_of limit w = (r, w') ->
                  extends (db w) (db w')) /\
    (forall r w', sync_all_data repr_of limit w = (r, w') ->
                  extends (db w) (db w')) /\
    (forall r w', search_and_sync repr_of query category w = (r, w') ->
                  extends (db w) (db w')).
Proof.
  intros repr_of limit query category w. split; [|split; [|split]].
  - apply only_adds_sync_categories_to_db.
  - apply only_adds_sync_products_to_db.
  - revert w. change (only_adds (sync_all_data repr_of limit)).
    unfold sync_all_data.
    apply only_adds_bind; [only_adds_tac|intros ?].
    apply only_adds_bind; [apply only_adds_sync_categories_to_db|intros ?].
    apply only_adds_bind; [apply only_adds_sync_products_to_db|intros ?].
    only_adds_tac.
  - revert w. change (only_adds (search_and_sync repr_of query category)).
    unfold search_and_sync.
    apply only_adds_bind; [apply only_adds_search_products|intros ?].
    apply only_adds_bind; [|intros ?; only_adds_tac].
    apply only_adds_for_fold. intros ? ?.
    apply only_adds_bind; [apply only_adds_sync_products_to_db|intros ?].
    only_adds_tac.
Qed.

Lemma sync_only_appends_rows_witness :
  exists P V,
    fst (sync_products_to_db plain_repr 50 (world_of catalog_broken store_of_one_lamp))
      = Raise (KeyError "category") /\
    productos (db (snd (sync_products_to_db plain_repr 50
                          (world_of catalog_broken store_of_one_lamp))))
      = (productos store_of_one_lamp ++ P)%list /\
    variantes (db (snd (sync_products_to_db plain_repr 50
                          (world_of catalog_broken store_of_one_lamp))))
      = (variantes store_of_one_lamp ++ V)%list.
Proof.
  destruct (sync_only_appends_rows plain_repr 50 "" None
              (world_of catalog_broken store_of_one_lamp))
    as (_ & H & _).
  destruct (H _ _ (surjective_pairing _)) as (_ & (P & HP) & (V & HV)).
  exists P, V. split; [reflexivity|]. split; [exact HP|exact HV].
Defined.

(** ** What a bad record leaves *)




Lemma before_query_clean s : pending s = [] -> before_query s = s.
Proof.
  intros H. unfold before_query. destruct (autoflush s); [apply flush_clean, H|reflexivity].
Qed.

Lemma create_producto_missing repr_of c n d t k w :
  pending (db w) = [] ->
  dict_get "title" d = Some t ->
  find (producto_named t) (productos (db w)) = None ->
  first_missing d = Some k ->
  create_producto repr_of c n (VDict d) w
  = (Raise (KeyError k),
     set_db w (insert_entity (db w)
                 (EProducto (Producto.new t (Categoria.id_categoria c) "API Externa")))).
Proof.
  intros Hp Ht Hf Hk.
  unfold create_producto, bind, lift, subscript. rewrite Ht.
  unfold query_producto_first. rewrite (before_query_clean _ Hp), Hf.
  unfold db_add, db_flush, with_db, flushed_producto. cbn [db set_db].
  rewrite flush_add, (flush_clean _ Hp).
  unfold first_missing in Hk.
  destruct (dict_get "id" d); [|injection Hk as <-; reflexivity].
  destruct (dict_get "price" d); [|injection Hk as <-; reflexivity].
  destruct (dict_get "image" d); [discriminate|injection Hk as <-; reflexivity].
Qed.

(** X11. A record that has a category and a title the store does not hold
    but lacks 'id', 'price' or 'image' makes the turn raise KeyError for the
    first of these keys that is missing, after the Product was added and
    flushed: the product row is in the store and has no variant. *)
Theorem missing_field_leaves_a_product_without_variant :
  forall (repr_of : value -> string) (n : Z) (d : list (string * value))
         (c : string) (t : value) (k : string) (w : World),
    pending (db w) = [] ->
    dict_get "category" d = Some (VStr c) ->
    dict_get "title" d = Some t ->
    find (producto_named t) (productos (db w)) = None ->
    first_missing d = Some k ->
    exists w' p,
      sync_producto repr_of n (VDict d) w = (Raise (KeyError k), w') /\
      productos (db w') = (productos (db w) ++ [p])%list /\
      Producto.nombre p = t /\
      Producto.marca p = "API Externa" /\
      Producto.id_producto p = Some (seq_producto (db w)) /\
      variantes (db w') = variantes (db w) /\
      pending (db w') = [].
Proof.
  intros repr_of n d c t k w Hp Hc Ht Hf Hk.
  unfold sync_producto, bind at 1.
  unfold find_or_create_categoria, bind, lift, subscript. rewrite Hc.
  cbn [str_title]. unfold query_categoria_first.
  rewrite (before_query_clean _ Hp).
  destruct (find _ (categorias (db w))) as [cat|].
  - cbn [ret]. rewrite world_eta.
    rewrite (create_producto_missing repr_of cat n d t k w Hp Ht Hf Hk).
    eexists _, _. split; [reflexivity|].
    cbn [db set_db insert_entity productos variantes pending Producto.new].
    repeat split. exact Hp.
  - unfold db_add, db_flush, with_db, flushed_categoria. cbn [db set_db].
    rewrite flush_add, (flush_clean _ Hp).
    set (s1 := insert_entity (db w) _).
    rewrite (create_producto_missing repr_of _ n d t k (set_db w s1));
      [|exact Hp|exact Ht|exact Hf|exact Hk].
    eexists _, _. split; [reflexivity|].
    cbn [db set_db s1 insert_entity productos variantes pending seq_producto
            Producto.new].
    repeat split. exact Hp.
Qed.

Lemma missing_field_leaves_a_product_without_variant_witness :
  exists w' p,
    sync_producto plain_repr 0 cap (world_of offline (empty_store false))
      = (Raise (KeyError "id"), w') /\
    productos (db w') = [p] /\
    Producto.nombre p = VStr "Cap" /\
    variantes (db w') = [] /\
    fst (sync_products_to_db plain_repr 50 (world_of catalog_bare (empty_store false)))
      = Raise (KeyError "id").
Proof.
  destruct (missing_field_leaves_a_product_without_variant plain_repr 0
              [("title", VStr "Cap"); ("category", VStr "hats")]
              "hats" (VStr "Cap") "id"
              (world_of offline (empty_store false))
              eq_refl eq_refl eq_refl eq_refl eq_refl)
    as (w' & p & E & HP & HN & _ & _ & HV & _).
  exists w', p. split; [exact E|]. split; [exact HP|]. split; [exact HN|].
  split; [exact HV|reflexivity].
Defined.

(** ** Replies with a success status *)





(** X13. When the API fails on both listings, [sync_all_data] reports 0
    categories and 0 products and adds nothing to the session, which it
    only commits; it logs its start, then for each phase the fetch error
    and the count of 0. *)
Theorem sync_all_data_on_a_failing_api :
  forall (repr_of : value -> string) (limit : Z) (w : World) (e1 e2 : exn),
    failure_of (net w url_categories) = Some e1 ->
    failure_of (net w (url_products limit)) = Some e2 ->
    exists w',
      sync_all_data repr_of limit w = (Ok (mkReport 0 0), w') /\
      db w' = commit (db w) /\
      calls w' = (calls w ++ [url_categories; url_products limit])%list /\
      log w'
        = (log w ++
           [mkLog INFO "Iniciando sincronización completa con API externa..." None;
            mkLog ERROR "Error al obtener categorías: " (Some e1);
            mkLog INFO "Sincronizadas 0 nuevas categorías" None;
            mkLog ERROR "Error al obtener productos: " (Some e2);
            mkLog INFO "Sincronizados 0 nuevos productos" None])%list.
Proof.
  intros repr_of limit w e1 e2 H1 H2.
  unfold sync_all_data, sync_categories_to_db, sync_products_to_db.
  unfold bind at 1, logger_info at 1. unfold bind at 1. unfold bind at 1.
  rewrite get_categories_run. cbn [net logged]. rewrite H1.
  cbn [lift iterate for_fold ret bind db_commit with_db logger_info].
  unfold bind at 1. unfold bind at 1. unfold bind at 1.
  rewrite get_products_run. cbn [net logged set_db called]. rewrite H2.
  cbn [lift iterate for_fold ret bind db_commit with_db logger_info].
  eexists. split; [reflexivity|].
  cbn [db calls log logged set_db called].
  split; [apply flush_flush|]. split; rewrite <- !app_assoc; reflexivity.
Qed.

Lemma sync_all_data_on_a_failing_api_witness :
  exists w',
    sync_all_data plain_repr 50 (world_of unavailable (empty_store true))
      = (Ok (mkReport 0 0), w') /\
    db w' = empty_store true /\
    List.length (log w') = 5%nat.
Proof.
  destruct (sync_all_data_on_a_failing_api plain_repr 50
              (world_of unavailable (empty_store true))
              (HTTPError 503) (HTTPError 503) eq_refl eq_refl)
    as (w' & E & Hd & _ & Hl).
  exists w'. split; [exact E|]. split; [exact Hd|]. rewrite Hl. reflexivity.
Defined.

(** ** Bounds of the search and of the recommendations *)

Lemma contains_empty s : contains "" s = true.
Proof. destruct s; reflexivity. Qed.

Lemma filter_all {A} (f : A -> bool) (l : list A) :
  forallb f l = true -> filter f l = l.
Proof.
  induction l as [|x l IH]; simpl; [reflexivity|].
  intros H. apply andb_prop in H as [Hx Hl]. rewrite Hx, (IH Hl). reflexivity.
Qed.

Lemma in_slice_to {A} (n : Z) (l : list A) (x : A) : In x (slice_to n l) -> In x l.
Proof. unfold slice_to. destruct (0 <=? n)%Z; apply in_firstn. Qed.

(** X14. [search_products] returns at most 20 records, each of them a
    record of the pool it fetched; with the empty query it returns the
    first 20 records of the pool, when each has a str title. *)
Theorem search_returns_at_most_20_pool_records :
  forall (repr_of : value -> string) (query : string) (category : option string)
         (w : World) (pool l : list value) (w' : World),
    iterate (fetched (net w (search_url category))) = Ok pool ->
    search_products repr_of query category w = (Ok l, w') ->
    (List.length l <= 20)%nat /\
    (forall p, In p l -> In p pool) /\
    (query = "" -> forallb has_title pool = true -> l = firstn 20 pool).
Proof.
  intros repr_of query category w pool l w' Hi E.
  destruct (search_products_run repr_of query category w) as (w1 & E1 & _).
  rewrite E1 in E. injection E as <- _.
  unfold search_spec. rewrite Hi.
  destruct (forallb has_title pool) eqn:T.
  - split; [apply firstn_le_length|]. split.
    + intros p Hp. apply in_firstn, filter_In in Hp. apply Hp.
    + intros -> _. f_equal. apply filter_all. clear - T.
      induction pool as [|v pool IH]; [reflexivity|]. simpl in *.
      apply andb_prop in T as [Tv Tp]. rewrite (IH Tp), andb_true_r.
      unfold matches, has_title in *.
      destruct (title_of v); [apply contains_empty|discriminate].
  - split; [simpl; lia|]. split; [intros p []|discriminate].
Qed.

Lemma search_returns_at_most_20_pool_records_witness :
  exists l,
    fst (search_products plain_repr "" None (world_of catalog (empty_store true)))
      = Ok l /\
    (List.length l <= 20)%nat /\
    l = firstn 20 [shirt; lamp].
Proof.
  destruct (search_returns_at_most_20_pool_records plain_repr "" None
              (world_of catalog (empty_store true)) [shirt; lamp]
              (search_spec "" (VList [shirt; lamp]))
              (snd (search_products plain_repr "" None
                      (world_of catalog (empty_store true))))
              eq_refl eq_refl)
    as (H1 & _ & H3).
  exists (search_spec "" (VList [shirt; lamp])).
  split; [reflexivity|]. split; [exact H1|]. apply H3; reflexivity.
Defined.

(** X15. [search_products] is blind to the letter case of the query: two
    queries that agree once lowered give the same result. *)
Theorem search_is_blind_to_the_case_of_the_query :
  forall (repr_of : value -> string) (q q' : string) (category : option string)
         (w : World),
    lower q = lower q' ->
    fst (search_products repr_of q category w)
    = fst (search_products repr_of q' category w).
Proof.
  intros repr_of q q' category w H.
  destruct (search_products_run repr_of q category w) as (w1 & E1 & _).
  destruct (search_products_run repr_of q' category w) as (w2 & E2 & _).
  rewrite E1, E2. cbn [fst]. f_equal. unfold search_spec.
  destruct (iterate _) as [pool|]; [|reflexivity].
  destruct (forallb has_title pool); [|reflexivity].
  f_equal. apply filter_ext. intros v. unfold matches. rewrite H. reflexivity.
Qed.

Lemma search_is_blind_to_the_case_of_the_query_witness :
  fst (search_products plain_repr "LAMP" None (world_of catalog (empty_store true)))
  = fst (search_products plain_repr "lamp" None (world_of catalog (empty_store true))).
Proof.
  apply (search_is_blind_to_the_case_of_the_query plain_repr "LAMP" "lamp" None
           (world_of catalog (empty_store true))).
  reflexivity.
Defined.

(** X16. Whatever the limit, negative or not, every record that
    [get_product_recommendations] returns has an id that differs from the
    product id; with a limit that is not negative it returns at most
    [limit] records, none for the limit 0. *)
Theorem recommendations_never_hold_the_product :
  forall (repr_of : value -> string) (product_id limit : Z) (w : World)
         (l : list value) (w' : World),
    get_product_recommendations repr_of product_id limit w = (Ok l, w') ->
    (forall p, In p l ->
               exists i, subscript p "id" = Ok i /\ eq_int i product_id = false) /\
    ((0 <= limit)%Z -> (Z.of_nat (List.length l) <= limit)%Z).
Proof.
  intros repr_of product_id limit w l w' E.
  destruct (get_product_recommendations_run repr_of product_id limit w)
    as (w1 & E1 & _).
  rewrite E1 in E. injection E as <- _.
  destruct (base_category _) as [category|].
  2:{ split; [intros p []|simpl; lia]. }
  unfold recommend_sliced. destruct (iterate _) as [pool|].
  2:{ split; [intros p []|simpl; lia]. }
  destruct (forallb has_id pool).
  2:{ split; [intros p []|simpl; lia]. }
  split.
  - intros p Hp. apply in_slice_to, filter_In in Hp as [_ Hp].
    unfold other_than, field in Hp.
    destruct (subscript p "id") as [i|]; [|discriminate].
    exists i. split; [reflexivity|]. apply negb_true_iff, Hp.
  - intros Hl. rewrite (slice_to_nonneg _ _ Hl).
    pose proof (firstn_le_length (Z.to_nat limit)
                  (filter (other_than product_id) pool)). lia.
Qed.

Lemma recommendations_never_hold_the_product_witness :
  exists l,
    fst (get_product_recommendations plain_repr 5 (-1)
           (world_of catalog (empty_store true))) = Ok l /\
    forall p, In p l -> exists i, subscript p "id" = Ok i /\ eq_int i 5 = false.
Proof.
  destruct (recommendations_never_hold_the_product plain_repr 5 (-1)
              (world_of catalog (empty_store true)) [phone; cable]
              (snd (get_product_recommendations plain_repr 5 (-1)
                      (world_of catalog (empty_store true))))
              eq_refl)
    as [H _].
  exists [phone; cable]. split; [reflexivity|exact H].
Defined.

(** X17. On a reply without error status, [search_products] logs nothing
    when the body is a sequence of records that each have a str title;
    when the body is not iterable, or one of its items has no str title,
    it returns the empty list and logs exactly one ERROR record "Error en
    búsqueda: " with the exception it caught. *)
Theorem search_logs_the_failure_it_swallows :
  forall (repr_of : value -> string) (query : string) (category : option string)
         (w : World),
    failure_of (net w (search_url category)) = None ->
    exists l w',
      search_products repr_of query category w = (Ok l, w') /\
      match iterate (body_of (net w (search_url category))) with
      | Ok pool =>
          if forallb has_title pool then log w' = log w
          else l = [] /\
               exists e, log w' = (log w ++ [mkLog ERROR "Error en búsqueda: " (Some e)])%list
      | Raise e =>
          l = [] /\
          log w' = (log w ++ [mkLog ERROR "Error en búsqueda: " (Some e)])%list
      end.
Proof.
  intros repr_of query category w F.
  assert (P : match category with
              | Some c =>
                  if truthy (VStr c) then get_products_by_category repr_of (VStr c)
                  else get_products 100
              | None => get_products 100
              end w
              = (Ok (body_of (net w (search_url category))),
                 called (search_url category) w)).
  { revert F. destruct category as [[|a c]|]; cbn [truthy String.eqb negb search_url];
      intros F.
    - rewrite get_products_run, F. reflexivity.
    - rewrite get_products_by_category_run. cbn [format]. rewrite F. reflexivity.
    - rewrite get_products_run, F. reflexivity. }
  unfold search_products, try_except, bind at 1. rewrite P.
  unfold bind at 1, lift at 1.
  destruct (iterate _) as [pool|e].
  2:{ cbn. eexists _, _. split; [reflexivity|]. split; reflexivity. }
  unfold bind at 1, lift.
  pose proof (filter_r_spec (title_matches query) has_title (matches query)
                (title_matches_good query) (title_matches_bad query) pool) as R.
  destruct (forallb has_title pool).
  - rewrite R. cbn. eexists _, _. split; reflexivity.
  - destruct R as [e ->]. cbn. eexists _, _. split; [reflexivity|].
    split; [reflexivity|]. eexists. reflexivity.
Qed.

Lemma search_logs_the_failure_it_swallows_witness :
  exists w' e,
    search_products plain_repr "mug" None (world_of catalog_odd (empty_store true))
      = (Ok [], w') /\
    log w' = [mkLog ERROR "Error en búsqueda: " (Some e)].
Proof.
  destruct (search_logs_the_failure_it_swallows plain_repr "mug" None
              (world_of catalog_odd (empty_store true))
              eq_refl)
    as (l & w' & E & H).
  cbn in H. destruct H as [-> [e He]].
  exists w', e. split; [exact E|exact He].
Defined.
